(** * pyo3_stubgen.generate: a shallow embedding and its verified properties

    The development follows [src/pyo3_stubgen/generate.py]: the signature
    parser, the function and class entry generators, the dispatcher
    [genentry] and the module aggregator [genpyi].

    Python strings are modelled as [string], one [ascii] per code point
    (code points below 256).  Exceptions are modelled by a small error
    monad; objects by a record holding exactly the attributes the
    generator reads. *)

From Stdlib Require Import String Ascii List Bool Arith NArith Lia.
From Stdlib Require Import Permutation Sorted.
Import ListNotations.

Open Scope list_scope.
Open Scope string_scope.

(** ** Characters and literals that Rocq strings cannot spell directly *)

Definition LF : ascii := "010"%char.
Definition CR : ascii := "013"%char.
Definition nl : string := String LF "".
Definition dquote : string := String "034"%char "".
Definition squote : string := String "039"%char "".
(** The token that opens and closes a Python docstring. *)
Definition triple_quote : string := dquote ++ dquote ++ dquote.

(** ** The methods of [str] that the generator calls *)

Module Str.

(** Truth value of a string: only the empty string is falsy. *)
Definition truthy (s : string) : bool :=
  match s with
  | EmptyString => false
  | String _ _ => true
  end.

(** [c in chars], for a single character. *)
Fixpoint mem (c : ascii) (chars : string) : bool :=
  match chars with
  | EmptyString => false
  | String d chars' => Ascii.eqb c d || mem c chars'
  end.

(** [str.isspace] on one character: the code points below 256 that Python
    counts as whitespace. *)
Definition isspace (c : ascii) : bool :=
  let n := nat_of_ascii c in
  (Nat.leb 9 n && Nat.leb n 13) || (Nat.leb 28 n && Nat.leb n 32)
  || Nat.eqb n 133 || Nat.eqb n 160.

(** Line boundaries recognised by [str.splitlines]. *)
Definition islinebreak (c : ascii) : bool :=
  let n := nat_of_ascii c in
  (Nat.leb 10 n && Nat.leb n 13) || (Nat.leb 28 n && Nat.leb n 30)
  || Nat.eqb n 133.

Fixpoint lstrip_by (p : ascii -> bool) (s : string) : string :=
  match s with
  | EmptyString => EmptyString
  | String c s' => if p c then lstrip_by p s' else s
  end.

Fixpoint rstrip_by (p : ascii -> bool) (s : string) : string :=
  match s with
  | EmptyString => EmptyString
  | String c s' =>
      match rstrip_by p s' with
      | EmptyString => if p c then EmptyString else String c EmptyString
      | r => String c r
      end
  end.

(** [s.strip(chars)]: drop leading and trailing characters of [chars]. *)
Definition strip_chars (chars : string) (s : string) : string :=
  rstrip_by (fun c => mem c chars) (lstrip_by (fun c => mem c chars) s).

(** [s.strip()]: drop leading and trailing whitespace. *)
Definition strip (s : string) : string :=
  rstrip_by isspace (lstrip_by isspace s).

(** [s.split(sep)] for a non-empty [sep]: occurrences are found from left
    to right and do not overlap.  [skip] counts the characters of a
    separator already matched that remain to be consumed.  The result is
    never empty; its head is the piece that starts at the current
    position. *)
Fixpoint split_from (sep : string) (skip : nat) (s : string) : list string :=
  match s with
  | EmptyString => [EmptyString]
  | String c s' =>
      match skip with
      | S k => split_from sep k s'
      | O =>
          if prefix sep s
          then EmptyString :: split_from sep (String.length sep - 1) s'
          else match split_from sep 0 s' with
               | piece :: pieces => String c piece :: pieces
               | [] => [String c EmptyString]
               end
      end
  end.

Definition split (sep : string) (s : string) : list string :=
  split_from sep 0 s.

(** [sep.join(pieces)]. *)
Definition join (sep : string) (pieces : list string) : string :=
  String.concat sep pieces.

(** [s.startswith(p)]. *)
Definition startswith (s p : string) : bool := prefix p s.

(** [sub in s]: substring test. *)
Fixpoint contains (sub s : string) : bool :=
  prefix sub s ||
  match s with
  | EmptyString => false
  | String _ s' => contains sub s'
  end.

(** [s.splitlines(True)]: the lines of [s], each with its line ending.
    A carriage return directly followed by a line feed is one ending. *)
Fixpoint splitlines_keepends (s : string) : list string :=
  match s with
  | EmptyString => []
  | String c s' =>
      if islinebreak c && negb (Ascii.eqb c CR && prefix nl s')
      then String c EmptyString :: splitlines_keepends s'
      else match splitlines_keepends s' with
           | line :: lines => String c line :: lines
           | [] => [String c EmptyString]
           end
  end.

(** Does the line hold a character that is not whitespace
    (the truth value of [line.strip()])? *)
Definition nonblank (line : string) : bool := truthy (strip line).

End Str.

(** ** [textwrap.indent] with its default predicate *)

Module textwrap.

Definition prefixed_line (prefix line : string) : string :=
  if Str.nonblank line then prefix ++ line else line.

Definition indent (text prefix : string) : string :=
  String.concat "" (map (prefixed_line prefix) (Str.splitlines_keepends text)).

End textwrap.

(** ** The signature parser *)

(** Truth value of an optional string ([None] and [""] are falsy). *)
Definition truthy (v : option string) : bool :=
  match v with
  | Some s => Str.truthy s
  | None => false
  end.

(** How an f-string renders an optional string. *)
Definition fmt (v : option string) : string :=
  match v with
  | Some s => s
  | None => "None"
  end.

(** One iteration of the loop of [parse_signature]: the text appended to
    [newargs] for the clause [argstr].  [str.split] never returns an empty
    list, so [spl[0]] always exists. *)
Definition parse_arg (argstr : string) : string :=
  let spl := Str.split "=" argstr in
  let argname := nth 0 spl "" in
  let argname := if argname =? "$self" then "self" else argname in
  let argdef := if Nat.eqb (List.length spl) 2 then Some (nth 1 spl "") else None in
  let argtype : option string := None in
  argname
    ++ (if truthy argtype then ": " ++ fmt argtype else "")
    ++ (if truthy argdef then " = " ++ fmt argdef else "").

Definition parse_signature (sig : string) (docstr : option string) : string :=
  let args := map Str.strip (Str.split ", " (Str.strip_chars " ()" sig)) in
  let newargs := map parse_arg args in
  "(" ++ Str.join ", " newargs ++ ")".

(** ** Exceptions *)

(** The two exceptions the generator can end with: the [ValueError] raised
    by [genentry], and the [AttributeError] the interpreter raises when an
    attribute is looked up on an object that lacks it ([attr] names the
    attribute). *)
Inductive exn : Type :=
| ValueError (msg : string)
| AttributeError (attr : string).

Inductive result (A : Type) : Type :=
| Return (a : A)
| Raise (e : exn).

Arguments Return {A} a.
Arguments Raise {A} e.

Definition bind {A B : Type} (r : result A) (k : A -> result B) : result B :=
  match r with
  | Return a => k a
  | Raise e => Raise e
  end.

Notation "x <- r ;; k" := (bind r (fun x => k))
  (at level 61, r at next level, right associativity).

(** A list comprehension whose element expression can raise: elements are
    evaluated from left to right and the first exception ends it. *)
Fixpoint comprehension {A B : Type} (f : A -> result B) (l : list A)
  : result (list B) :=
  match l with
  | [] => Return []
  | a :: l' =>
      b <- f a ;;
      bs <- comprehension f l' ;;
      Return (b :: bs)
  end.

(** ** Objects *)

(** Runtime types.  [types.BuiltinFunctionType] and
    [types.BuiltinMethodType] are two names of one type,
    [builtin_function_or_method]; [types.MethodDescriptorType] is
    [method_descriptor]; [type] is the type of plain classes.  Every other
    type is [other_type]; it carries the text that formatting the type in
    an f-string gives, which the metaclass of the type decides: the text
    is [<class 'int'>] for [int] and [<enum 'Color'>] for an enumeration
    [Color]. *)
Inductive pytype : Type :=
| builtin_function_or_method
| method_descriptor
| type
| other_type (rendering : string).

Definition BuiltinFunctionType : pytype := builtin_function_or_method.
Definition MethodDescriptorType : pytype := method_descriptor.
Definition BuiltinMethodType : pytype := builtin_function_or_method.

Definition pytype_eqb (t u : pytype) : bool :=
  match t, u with
  | builtin_function_or_method, builtin_function_or_method => true
  | method_descriptor, method_descriptor => true
  | type, type => true
  | other_type a, other_type b => a =? b
  | _, _ => false
  end.

(** [t in types], for a tuple of types. *)
Fixpoint type_in (t : pytype) (types : list pytype) : bool :=
  match types with
  | [] => false
  | u :: types' => pytype_eqb t u || type_in t types'
  end.

(** [f"{t}"] for a type [t]. *)
Definition type_repr (t : pytype) : string :=
  match t with
  | builtin_function_or_method =>
      "<class " ++ squote ++ "builtin_function_or_method" ++ squote ++ ">"
  | method_descriptor => "<class " ++ squote ++ "method_descriptor" ++ squote ++ ">"
  | type => "<class " ++ squote ++ "type" ++ squote ++ ">"
  | other_type rendering => rendering
  end.

(** An object, reduced to what the generator reads from it: its runtime
    type, [__name__], [__doc__] ([None] or a string), [__text_signature__]
    (the outer [None] is an object without the attribute, [Some None] the
    attribute holding [None]) and, in the order of [dir(obj)], the names
    that [dir] lists, each with the object [getattr] resolves it to, or
    with [None] when the lookup of the listed name fails (as that of
    [__abstractmethods__] does on [type] and on every metaclass). *)
#[warnings="-register-all"]
Inductive object : Type := Object {
  __class__ : pytype;
  __name__ : string;
  __doc__ : option string;
  __text_signature__ : option (option string);
  dir : list (string * option object)
}.

(** [type(obj)]. *)
Definition typeof (obj : object) : pytype := __class__ obj.

Definition hasattr_text_signature (obj : object) : bool :=
  match __text_signature__ obj with
  | Some _ => true
  | None => false
  end.

(** [getattr(obj, name)] for an entry of [dir(obj)]: a name that does not
    resolve raises the [AttributeError] that names it. *)
Definition getattr (entry : string * option object) : result object :=
  match snd entry with
  | Some value => Return value
  | None => Raise (AttributeError (fst entry))
  end.

(** [[getattr(obj, name) for name in dir(obj)]]. *)
Definition dir_contents (obj : object) : result (list object) :=
  comprehension getattr (dir obj).

(** ** The generators *)

Definition FUNCTION_TYPES : list pytype :=
  [BuiltinFunctionType; MethodDescriptorType; BuiltinMethodType].

Definition SUPPORTED_TYPES : list pytype := (FUNCTION_TYPES ++ [type])%list.

(** The docstring block shared by both generators: the branches taken when
    [__doc__] is truthy. *)
Definition doc_block (doc : string) : string :=
  if Str.contains nl doc
  then "    " ++ triple_quote ++ nl ++ textwrap.indent doc "    " ++ nl
         ++ "    " ++ triple_quote
  else "    " ++ triple_quote ++ doc ++ triple_quote.

(** [parse_signature(function.__text_signature__, function.__doc__)]:
    the attribute lookup fails on an object without the attribute, and
    [sig.strip] fails when the attribute holds [None]. *)
Definition signature_of (function : object) : result string :=
  match __text_signature__ function with
  | None => Raise (AttributeError "__text_signature__")
  | Some None => Raise (AttributeError "strip")
  | Some (Some sig) => Return (parse_signature sig (__doc__ function))
  end.

Definition gen_function_entry (function : object) : result string :=
  let doc :=
    if truthy (__doc__ function)
    then doc_block (fmt (__doc__ function))
    else "    ..." in
  signature <- signature_of function ;;
  Return ("def " ++ __name__ function ++ signature ++ ":" ++ nl ++ doc ++ nl).

(** The condition of the comprehension that selects the methods of a
    class. *)
Definition is_method (function : object) : bool :=
  type_in (typeof function) [MethodDescriptorType; BuiltinMethodType]
  && hasattr_text_signature function
  && negb (Str.startswith (__name__ function) "__").

Definition gen_class_entry (cls : object) : result string :=
  contents <- dir_contents cls ;;
  methods <- comprehension
               (fun function =>
                  entry <- gen_function_entry function ;;
                  Return (textwrap.indent entry "    "))
               (filter is_method contents) ;;
  let doc :=
    if truthy (__doc__ cls) then doc_block (fmt (__doc__ cls))
    else match methods with
         | [] => "    ..."
         | _ :: _ => ""
         end in
  let doc := doc ++ nl ++ Str.join nl methods in
  Return ("class " ++ __name__ cls ++ ":" ++ nl ++ doc ++ nl).

Definition genentry (obj : object) : result string :=
  if type_in (typeof obj) FUNCTION_TYPES then gen_function_entry obj
  else if pytype_eqb (typeof obj) type then gen_class_entry obj
  else Raise (ValueError ("Unsupported type " ++ type_repr (typeof obj))).

(** [sorted] on strings: Python compares strings code point by code point,
    which is [String.leb]; the order is total and antisymmetric, so the
    sorted list is unique and a stable insertion sort computes it. *)
Fixpoint insert_sorted (x : string) (l : list string) : list string :=
  match l with
  | [] => [x]
  | y :: l' => if String.leb x y then x :: l else y :: insert_sorted x l'
  end.

Fixpoint sorted (l : list string) : list string :=
  match l with
  | [] => []
  | x :: l' => insert_sorted x (sorted l')
  end.

Definition header : string := "# flake8: noqa: PYI021".

(** The objects a module is asked for: those of a supported type. *)
Definition supported (obj : object) : bool := type_in (typeof obj) SUPPORTED_TYPES.

Definition genpyi (module : object) : result string :=
  objs <- dir_contents module ;;
  definitions <- comprehension genentry (filter supported objs) ;;
  let contents := header :: sorted definitions in
  Return (Str.join nl contents).

(** ** Auxiliary notions used to state the properties *)

(** [n] spaces. *)
Fixpoint spaces (n : nat) : string :=
  match n with
  | O => ""
  | S n' => String " " (spaces n')
  end.

(** Every character of [s] satisfies [p]. *)
Fixpoint all_chars (p : ascii -> bool) (s : string) : bool :=
  match s with
  | EmptyString => true
  | String c s' => p c && all_chars p s'
  end.

(** An instance of an ordinary class named [qualname], which the
    generator does not support; none of its attributes is read. *)
Definition plain_value (qualname : string) : object :=
  Object (other_type ("<class " ++ squote ++ qualname ++ squote ++ ">"))
         "" None None [].

(** A member of an enumeration [Color]: its type is rendered by the
    metaclass of enumerations. *)
Definition color_member : object :=
  Object (other_type ("<enum " ++ squote ++ "Color" ++ squote ++ ">"))
         "RED" None None [].

(** The type of modules. *)
Definition ModuleType : pytype :=
  other_type ("<class " ++ squote ++ "module" ++ squote ++ ">").

(** An entry of [dir] whose name resolves. *)
Definition attr (name : string) (value : object) : string * option object :=
  (name, Some value).

(** A synthetic module [m] exposing the native function [add(a, b=0)], next
    to the attributes every module has. *)
Definition add_function : object :=
  Object BuiltinFunctionType "add" (Some "Add two numbers.")
         (Some (Some "(a, b=0)")) [].

Definition add_module : object :=
  Object ModuleType "m" None None
         [attr "__doc__" (plain_value "NoneType");
          attr "__name__" (plain_value "str");
          attr "add" add_function].

(** A class [Shape] with one ordinary native method, documented over
    several lines, and one native method with a double-underscore name. *)
Definition area_method : object :=
  Object MethodDescriptorType "area"
         (Some ("Area of the shape." ++ nl ++ nl ++ "Scaled by scale."))
         (Some (Some "($self, scale=1)")) [].

Definition repr_method : object :=
  Object MethodDescriptorType "__repr__" (Some "Return repr(self).")
         (Some (Some "($self, /)")) [].

Definition shape_class : object :=
  Object type "Shape" None None
         [attr "__repr__" repr_method; attr "area" area_method].

(** Does the name of the member start with a double underscore? *)
Definition dunder (function : object) : bool :=
  Str.startswith (__name__ function) "__".

(** The class with every double-underscore member taken out of its
    [dir]. *)
Definition without_dunder (cls : object) : object :=
  Object (__class__ cls) (__name__ cls) (__doc__ cls) (__text_signature__ cls)
         (filter (fun member =>
                    match snd member with
                    | Some function => negb (dunder function)
                    | None => true
                    end)
                 (dir cls)).

(** The entry generated for [Shape]. *)
Definition shape_entry : string :=
  "class Shape:" ++ nl ++ nl
  ++ "    def area(self, scale = 1):" ++ nl
  ++ "        " ++ triple_quote ++ nl
  ++ "        Area of the shape." ++ nl ++ nl
  ++ "        Scaled by scale." ++ nl
  ++ "        " ++ triple_quote ++ nl ++ nl.

(** A module whose members, in the order of their names, are the function
    [Zeta] and the class [alpha]. *)
Definition zeta_function : object :=
  Object BuiltinFunctionType "Zeta" None (Some (Some "()")) [].

Definition alpha_class : object :=
  Object type "alpha" None None [].

Definition mixed_module : object :=
  Object ModuleType "mixed" None None
         [attr "Zeta" zeta_function;
          attr "alpha" alpha_class;
          attr "version" (plain_value "int")].

(** The order of [sorted]: string comparison, code point by code point. *)
Definition str_le (a b : string) : Prop := String.leb a b = true.

(** A parameter as a text signature writes it: its name and, when it has
    one, the text of its default. *)
Definition param : Type := (string * option string)%type.

(** The clause of the parameter in the text signature. *)
Definition written (p : param) : string :=
  match snd p with
  | Some default => fst p ++ "=" ++ default
  | None => fst p
  end.

(** The clause of the parameter in the generated stub. *)
Definition shown (p : param) : string :=
  (if fst p =? "$self" then "self" else fst p)
  ++ match snd p with
     | Some default => " = " ++ default
     | None => ""
     end.

(** Characters of a simple token: no whitespace, and none of the
    characters the parser gives a meaning to. *)
Definition plain_char (c : ascii) : bool :=
  negb (Str.isspace c) && negb (Str.mem c "=,()").

Definition plain_token (s : string) : bool :=
  Str.truthy s && all_chars plain_char s.

Definition plain_param (p : param) : bool :=
  plain_token (fst p)
  && match snd p with
     | Some default => plain_token default
     | None => true
     end.

(** The last character of [s] exists and does not satisfy [p]. *)
Fixpoint ends_outside (p : ascii -> bool) (s : string) : bool :=
  match s with
  | EmptyString => false
  | String c EmptyString => negb (p c)
  | String _ s' => ends_outside p s'
  end.

(** ** Notions used to state further properties *)

(** The number of occurrences of the character [ch] in [s]. *)
Fixpoint count_char (ch : ascii) (s : string) : nat :=
  match s with
  | EmptyString => 0
  | String c s' => (if Ascii.eqb c ch then 1 else 0) + count_char ch s'
  end.

(** The text of [s] before its first [ch] (all of [s] when it has none). *)
Fixpoint before_char (ch : ascii) (s : string) : string :=
  match s with
  | EmptyString => EmptyString
  | String c s' => if Ascii.eqb c ch then EmptyString else String c (before_char ch s')
  end.

(** The text of [s] after its first [ch] (nothing when it has none). *)
Fixpoint after_char (ch : ascii) (s : string) : string :=
  match s with
  | EmptyString => EmptyString
  | String c s' => if Ascii.eqb c ch then s' else after_char ch s'
  end.

(** [s] with every [old] turned into [new]. *)
Fixpoint replace_char (old new : ascii) (s : string) : string :=
  match s with
  | EmptyString => EmptyString
  | String c s' =>
      String (if Ascii.eqb c old then new else c) (replace_char old new s')
  end.

(** The name under which a parameter is shown. *)
Definition rename_self (argname : string) : string :=
  if argname =? "$self" then "self" else argname.


(** [s] ends with [suffix]. *)
Definition ends_with (s suffix : string) : Prop := exists t, s = t ++ suffix.

(** The two kinds of supported members. *)
Definition is_function (obj : object) : bool := type_in (typeof obj) FUNCTION_TYPES.

Definition is_class (obj : object) : bool :=
  negb (is_function obj) && pytype_eqb (typeof obj) type.

(** The relative path that [genfile] derives from the dotted name of a
    module, before it is joined to the output location and given its
    suffix. *)
Definition module_relpath (modulename : string) : string :=
  Str.join "/" (Str.split "." modulename).

(** A class [Text] whose native method [format] has no text signature. *)
Definition format_method : object :=
  Object MethodDescriptorType "format" None (Some None) [].

Definition text_class : object :=
  Object type "Text" None None [attr "format" format_method].

(** A metaclass: [dir] lists [__abstractmethods__], which cannot be
    looked up. *)
Definition mro_method : object :=
  Object MethodDescriptorType "mro"
         (Some "Return a type's method resolution order.")
         (Some (Some "($self, /)")) [].

Definition meta_class : object :=
  Object type "Meta" None None
         [("__abstractmethods__", None); attr "mro" mro_method].




(** A module without any member of a supported type. *)
Definition bare_module : object :=
  Object ModuleType "bare" None None
         [attr "__name__" (plain_value "str"); attr "version" (plain_value "int")].

(** The members of [mixed_module], listed the other way round and next to
    other unsupported members. *)
Definition mixed_module_reordered : object :=
  Object ModuleType "mixed" None None
         [attr "__doc__" (plain_value "NoneType");
          attr "alpha" alpha_class;
          attr "Zeta" zeta_function].

(** [s] holds none of the characters that end a line. *)
Definition no_linebreak (s : string) : bool :=
  all_chars (fun c => negb (Str.islinebreak c)) s.

(** * Properties *)

(** ** Runtime types *)

Lemma pytype_eqb_spec (t u : pytype) : reflect (t = u) (pytype_eqb t u).
Proof.
  destruct t as [| | |a], u as [| | |b]; simpl; try (constructor; congruence).
  destruct (String.eqb_spec a b); constructor; congruence.
Qed.

Lemma type_in_spec (t : pytype) (types : list pytype) :
  type_in t types = true <-> In t types.
Proof.
  induction types as [|u types IH]; simpl.
  - split; [discriminate | tauto].
  - rewrite orb_true_iff, IH.
    destruct (pytype_eqb_spec t u) as [->|Hne]; [tauto|].
    split; (intros [H|H]; [|tauto]); [discriminate | congruence].
Qed.

Lemma supported_spec (obj : object) :
  supported obj = true <-> In (typeof obj) FUNCTION_TYPES \/ typeof obj = type.
Proof.
  unfold supported, SUPPORTED_TYPES.
  rewrite type_in_spec, in_app_iff; simpl. intuition congruence.
Qed.

(** ** The error monad *)

Lemma bind_Return_inv {A B : Type} (r : result A) (k : A -> result B) (b : B) :
  bind r k = Return b -> exists a, r = Return a /\ k a = Return b.
Proof. destruct r as [a|e]; simpl; [eauto | discriminate]. Qed.

Lemma bind_Raise_inv {A B : Type} (r : result A) (k : A -> result B) (e : exn) :
  bind r k = Raise e -> r = Raise e \/ exists a, r = Return a /\ k a = Raise e.
Proof. destruct r as [a|e']; simpl; [eauto | intros [= ->]; auto]. Qed.

(** A comprehension raises only what one of its elements raises. *)
Lemma comprehension_Raise {A B : Type} (f : A -> result B) (l : list A) (e : exn) :
  comprehension f l = Raise e -> exists a, In a l /\ f a = Raise e.
Proof.
  induction l as [|a l IH]; simpl; [discriminate|].
  destruct (f a) as [b|e'] eqn:Hfa; simpl.
  - destruct (comprehension f l) as [bs|e'']; simpl; [discriminate|].
    intros [= ->]. destruct IH as (a' & Hin & Ha'); eauto.
  - intros [= ->]; eauto.
Qed.

(** A comprehension that returns pairs each element with its image. *)
Lemma comprehension_Return {A B : Type} (f : A -> result B) (l : list A) (bs : list B) :
  comprehension f l = Return bs -> Forall2 (fun a b => f a = Return b) l bs.
Proof.
  revert bs; induction l as [|a l IH]; simpl; intros bs.
  - intros [= <-]; constructor.
  - destruct (f a) as [b|] eqn:Hfa; simpl; [|discriminate].
    destruct (comprehension f l) as [bs'|]; simpl; [|discriminate].
    intros [= <-]; constructor; auto.
Qed.

(** ** Strings *)

Lemma all_chars_app (p : ascii -> bool) (s t : string) :
  all_chars p (s ++ t) = all_chars p s && all_chars p t.
Proof.
  induction s as [|c s IH]; simpl; [reflexivity|].
  now rewrite IH, andb_assoc.
Qed.

Lemma all_chars_spaces (p : ascii -> bool) (n : nat) :
  p " "%char = true -> all_chars p (spaces n) = true.
Proof. intros Hp; induction n; simpl; [reflexivity | now rewrite Hp]. Qed.

Lemma lstrip_by_all (p : ascii -> bool) (s : string) :
  all_chars p s = true -> Str.lstrip_by p s = "".
Proof.
  induction s as [|c s IH]; simpl; [reflexivity|].
  intros [Hc Hs]%andb_true_iff. now rewrite Hc; apply IH.
Qed.

(** A string made only of stripped characters is stripped to nothing. *)
Lemma strip_chars_all (chars s : string) :
  all_chars (fun c => Str.mem c chars) s = true -> Str.strip_chars chars s = "".
Proof. intros H; unfold Str.strip_chars; now rewrite lstrip_by_all. Qed.

(** ** The signature parser *)

(** C9. The zero-argument signature, with any number of spaces between
    its parentheses, is parsed to exactly the text of an empty parameter
    list: the single empty clause that the split produces adds nothing. *)
Theorem parse_signature_no_arguments (n : nat) (docstr : option string) :
  parse_signature ("(" ++ spaces n ++ ")") docstr = "()".
Proof.
  unfold parse_signature.
  rewrite strip_chars_all; [reflexivity|].
  rewrite !all_chars_app, all_chars_spaces by reflexivity.
  reflexivity.
Qed.

Example parse_signature_unit : parse_signature "()" None = "()".
Proof. reflexivity. Qed.

(** C2 (the code departs from the claim). The clause is split on every
    equals sign and a default is kept only when that gives exactly two
    pieces: a default whose own text holds an equals sign is dropped
    instead of being copied. *)
Theorem parse_signature_drops_default_with_equals :
  parse_signature ("(sep=" ++ dquote ++ "=" ++ dquote ++ ")") None = "(sep)".
Proof. reflexivity. Qed.

(** C6 (the code departs from the claim). The marker of the receiver is
    renamed and the order is kept, but the default of [sep], whose text
    holds an equals sign, is lost. *)
Theorem parse_signature_self_loses_default :
  parse_signature ("($self, sep=" ++ dquote ++ "=" ++ dquote ++ ", n=1)") None
  = "(self, sep, n = 1)".
Proof. reflexivity. Qed.

(** ** End to end: the module exposing [add] *)

(** C1 (as the code behaves). For a module whose members are [objs], the
    only one of a supported type being a native function named [add] with
    text signature [(a, b=0)] and docstring [Add two numbers.], [genpyi]
    returns the header line, one line break, and the entry of [add], in
    which the default is written [b = 0]. *)
Theorem genpyi_add_module (module function : object) (objs : list object) :
  In (typeof function) FUNCTION_TYPES ->
  __name__ function = "add" ->
  __text_signature__ function = Some (Some "(a, b=0)") ->
  __doc__ function = Some "Add two numbers." ->
  dir_contents module = Return objs ->
  filter supported objs = [function] ->
  genpyi module
  = Return ("# flake8: noqa: PYI021" ++ nl
            ++ "def add(a, b = 0):" ++ nl
            ++ "    " ++ triple_quote ++ "Add two numbers." ++ triple_quote ++ nl).
Proof.
  intros Hty Hname Hsig Hdoc Hobjs Hmembers.
  unfold genpyi. rewrite Hobjs. cbn [bind]. rewrite Hmembers.
  simpl comprehension.
  unfold genentry. apply type_in_spec in Hty. rewrite Hty.
  unfold gen_function_entry, signature_of. rewrite Hname, Hsig, Hdoc.
  reflexivity.
Qed.

Lemma genpyi_add_module_witness :
  genpyi add_module
  = Return ("# flake8: noqa: PYI021" ++ nl
            ++ "def add(a, b = 0):" ++ nl
            ++ "    " ++ triple_quote ++ "Add two numbers." ++ triple_quote ++ nl).
Proof.
  apply (genpyi_add_module add_module add_function
           [plain_value "NoneType"; plain_value "str"; add_function]).
  - simpl; auto.
  - reflexivity.
  - reflexivity.
  - reflexivity.
  - reflexivity.
  - reflexivity.
Defined.

(** C1 (as the claim words it) fails: on the synthetic module the result is
    not the header, a blank line and an entry spelling the default
    [b=0]. *)
Lemma genpyi_add_module_not_as_claimed :
  (exists objs,
      dir_contents add_module = Return objs
      /\ filter supported objs = [add_function])
  /\ genpyi add_module
     <> Return ("# flake8: noqa: PYI021" ++ nl ++ nl
                ++ "def add(a, b=0):" ++ nl
                ++ "    " ++ triple_quote ++ "Add two numbers." ++ triple_quote ++ nl).
Proof. split; [eexists; split; reflexivity | discriminate]. Qed.

(** ** The dispatcher *)

(** The only exception of the function generator is the failed attribute
    lookup. *)
Lemma gen_function_entry_Raise (function : object) (e : exn) :
  gen_function_entry function = Raise e -> exists attr, e = AttributeError attr.
Proof.
  unfold gen_function_entry, signature_of.
  destruct (__text_signature__ function) as [[sig|]|]; simpl;
    [discriminate | intros [= <-]; eauto | intros [= <-]; eauto].
Qed.

(** Looking the listed names up can only fail on a name. *)
Lemma dir_contents_Raise (obj : object) (e : exn) :
  dir_contents obj = Raise e -> exists attr, e = AttributeError attr.
Proof.
  unfold dir_contents. intros (entry & _ & H)%comprehension_Raise.
  unfold getattr in H. destruct (snd entry); [discriminate|].
  injection H as <-. eauto.
Qed.

Lemma gen_class_entry_Raise (cls : object) (e : exn) :
  gen_class_entry cls = Raise e -> exists attr, e = AttributeError attr.
Proof.
  unfold gen_class_entry. intros H.
  apply bind_Raise_inv in H as [H | (contents & _ & H)];
    [now apply dir_contents_Raise in H|].
  apply bind_Raise_inv in H as [H | (methods & _ & H)]; [|discriminate].
  apply comprehension_Raise in H as (function & _ & H).
  apply bind_Raise_inv in H as [H | (entry & _ & H)]; [|discriminate].
  now apply gen_function_entry_Raise in H.
Qed.

Lemma genentry_function (obj : object) :
  In (typeof obj) FUNCTION_TYPES -> genentry obj = gen_function_entry obj.
Proof. intros H%type_in_spec. unfold genentry. now rewrite H. Qed.

Lemma genentry_class (obj : object) :
  typeof obj = type -> genentry obj = gen_class_entry obj.
Proof. intros H. unfold genentry. now rewrite H. Qed.

(** On an object of a supported type the dispatcher hands over to one of
    the two generators, and so cannot end with its own [ValueError]. *)
Lemma genentry_supported (obj : object) :
  supported obj = true ->
  (genentry obj = gen_function_entry obj \/ genentry obj = gen_class_entry obj)
  /\ forall msg, genentry obj <> Raise (ValueError msg).
Proof.
  intros [H|H]%supported_spec.
  - rewrite (genentry_function _ H). split; [auto|].
    intros msg [attr [=]]%gen_function_entry_Raise.
  - rewrite (genentry_class _ H). split; [auto|].
    intros msg [attr [=]]%gen_class_entry_Raise.
Qed.




Example genentry_int :
  genentry (plain_value "int")
  = Raise (ValueError ("Unsupported type <class " ++ squote ++ "int" ++ squote ++ ">")).
Proof. reflexivity. Qed.

Example genentry_enum_member :
  genentry color_member
  = Raise (ValueError ("Unsupported type <enum " ++ squote ++ "Color" ++ squote ++ ">")).
Proof. reflexivity. Qed.


(** C10. An object that passes the filter of [genpyi] (its type is one of
    the three function types or exactly [type]) is handed by [genentry] to
    one of the two generators, so the raising branch is not reached; and
    [genpyi] ends with the unsupported-type error for no module. *)
Theorem genpyi_never_unsupported :
  (forall obj : object,
      In (typeof obj) SUPPORTED_TYPES ->
      (genentry obj = gen_function_entry obj
       \/ genentry obj = gen_class_entry obj)
      /\ forall msg, genentry obj <> Raise (ValueError msg))
  /\ (forall (module : object) (msg : string),
         genpyi module <> Raise (ValueError msg)).
Proof.
  split.
  - intros obj Hin%type_in_spec. now apply genentry_supported.
  - intros module msg H. unfold genpyi in H.
    apply bind_Raise_inv in H as [H | (objs & _ & H)];
      [now apply dir_contents_Raise in H as [attr [=]]|].
    apply bind_Raise_inv in H as [H | (definitions & _ & H)]; [|discriminate].
    apply comprehension_Raise in H as (obj & Hin & H).
    apply filter_In in Hin as [_ Hsup].
    now apply (genentry_supported _ Hsup) in H.
Qed.

Lemma genpyi_never_unsupported_witness :
  (forall msg, genentry add_function <> Raise (ValueError msg))
  /\ (forall msg, genpyi add_module <> Raise (ValueError msg)).
Proof.
  split.
  - apply (proj1 genpyi_never_unsupported add_function). simpl; auto.
  - apply (proj2 genpyi_never_unsupported add_module).
Defined.

(** ** Substrings and lines *)

Lemma app_assoc_string (s t u : string) : (s ++ t) ++ u = s ++ t ++ u.
Proof. induction s as [|c s IH]; simpl; [reflexivity | now rewrite IH]. Qed.

Lemma app_empty_r (s : string) : s ++ "" = s.
Proof. induction s as [|c s IH]; simpl; [reflexivity | now rewrite IH]. Qed.

Lemma prefix_spec (p s : string) :
  prefix p s = true <-> exists t, s = p ++ t.
Proof.
  revert s; induction p as [|c p IH]; intros s.
  - destruct s; simpl; split; eauto.
  - destruct s as [|d s]; simpl; [split; [discriminate | intros [t [=]]]|].
    destruct (ascii_dec c d) as [->|Hne].
    + rewrite IH. split; intros [t H]; exists t; congruence.
    + split; [discriminate | intros [t [= H _]]; congruence].
Qed.

(** [sub in s] holds exactly when [s] reads: something, [sub], something. *)
Lemma contains_spec (sub s : string) :
  Str.contains sub s = true <-> exists before after, s = before ++ sub ++ after.
Proof.
  induction s as [|c s IH].
  - change (Str.contains sub "") with (prefix sub "" || false).
    rewrite orb_false_r, prefix_spec. split.
    + intros [t H]; now exists "", t.
    + intros (before & after & H). destruct before; [now exists after|discriminate].
  - change (Str.contains sub (String c s))
      with (prefix sub (String c s) || Str.contains sub s).
    rewrite orb_true_iff, IH, prefix_spec. split.
    + intros [[t H] | (before & after & H)].
      * now exists "", t.
      * exists (String c before), after. simpl; congruence.
    + intros ([|d before] & after & H).
      * left; now exists after.
      * right; exists before, after. simpl in H; congruence.
Qed.

Lemma contains_truthy (sub s : string) :
  Str.truthy sub = true -> Str.contains sub s = true -> Str.truthy s = true.
Proof. destruct s, sub; simpl; auto; discriminate. Qed.

(** The lines of a text, put end to end, are the text. *)
Lemma concat_splitlines (s : string) :
  String.concat "" (Str.splitlines_keepends s) = s.
Proof.
  assert (Hcons : forall c line lines,
             String.concat "" (String c line :: lines)
             = String c (String.concat "" (line :: lines))).
  { intros c line [|l lines]; reflexivity. }
  induction s as [|c s IH]; [reflexivity|].
  simpl Str.splitlines_keepends.
  destruct (Str.islinebreak c && negb (Ascii.eqb c CR && prefix nl s)).
  - destruct (Str.splitlines_keepends s) eqn:E; simpl in *; congruence.
  - destruct (Str.splitlines_keepends s) as [|line lines] eqn:E.
    + simpl in *; congruence.
    + rewrite Hcons; congruence.
Qed.

(** Indentation changes no line of the text except by putting the prefix
    in front of it. *)
Lemma indent_lines (text prefix : string) :
  exists lines block,
    String.concat "" lines = text
    /\ String.concat "" block = textwrap.indent text prefix
    /\ Forall2 (fun line shown => shown = line \/ shown = prefix ++ line)
               lines block.
Proof.
  exists (Str.splitlines_keepends text),
         (map (textwrap.prefixed_line prefix) (Str.splitlines_keepends text)).
  split; [apply concat_splitlines | split; [reflexivity|]].
  induction (Str.splitlines_keepends text) as [|line lines IH]; constructor; auto.
  unfold textwrap.prefixed_line. destruct (Str.nonblank line); auto.
Qed.

(** ** The function generator *)

(** C5. For a callable with a text signature the entry is the [def] line
    with the parsed signature, a line break, the documentation block and a
    line break.  Documentation holding a line break gives a triple-quoted
    block whose body is the text, line by line, unchanged but for the
    indentation; documentation on one line gives the inline triple-quoted
    string; no documentation (none, or empty) gives the placeholder. *)
Theorem gen_function_entry_shape (function : object) (sig : string) :
  __text_signature__ function = Some (Some sig) ->
  let signature := parse_signature sig (__doc__ function) in
  let entry doc_block :=
    Return ("def " ++ __name__ function ++ signature ++ ":" ++ nl
            ++ doc_block ++ nl) in
  (forall doc,
      __doc__ function = Some doc ->
      (exists before after, doc = before ++ nl ++ after) ->
      gen_function_entry function
      = entry ("    " ++ triple_quote ++ nl ++ textwrap.indent doc "    " ++ nl
               ++ "    " ++ triple_quote)
      /\ exists lines block,
           String.concat "" lines = doc
           /\ String.concat "" block = textwrap.indent doc "    "
           /\ Forall2 (fun line shown => shown = line \/ shown = "    " ++ line)
                      lines block)
  /\ (forall doc,
         __doc__ function = Some doc ->
         doc <> "" ->
         ~ (exists before after, doc = before ++ nl ++ after) ->
         gen_function_entry function
         = entry ("    " ++ triple_quote ++ doc ++ triple_quote))
  /\ (__doc__ function = None \/ __doc__ function = Some "" ->
      gen_function_entry function = entry "    ...").
Proof.
  intros Hsig signature entry.
  unfold gen_function_entry, signature_of. rewrite Hsig.
  split; [|split].
  - intros doc Hdoc (before & after & Hnl).
    split; [|apply indent_lines].
    assert (Hin : Str.contains nl doc = true)
      by (apply contains_spec; eauto).
    rewrite Hdoc; simpl truthy; simpl fmt.
    rewrite (contains_truthy nl doc eq_refl Hin).
    unfold doc_block. rewrite Hin. reflexivity.
  - intros doc Hdoc Hne Hnl.
    rewrite Hdoc; simpl truthy; simpl fmt.
    destruct doc as [|c doc]; [congruence|]. simpl Str.truthy.
    unfold doc_block.
    destruct (Str.contains nl (String c doc)) eqn:Hin; [|reflexivity].
    now apply contains_spec in Hin.
  - intros [-> | ->]; reflexivity.
Qed.

Lemma gen_function_entry_shape_witness :
  gen_function_entry area_method
  = Return ("def area(self, scale = 1):" ++ nl
            ++ "    " ++ triple_quote ++ nl
            ++ "    Area of the shape." ++ nl ++ nl ++ "    Scaled by scale." ++ nl
            ++ "    " ++ triple_quote ++ nl)
  /\ gen_function_entry add_function
     = Return ("def add(a, b = 0):" ++ nl
               ++ "    " ++ triple_quote ++ "Add two numbers." ++ triple_quote ++ nl).
Proof.
  split.
  - apply (proj1 (@gen_function_entry_shape area_method "($self, scale=1)" eq_refl)
                 ("Area of the shape." ++ nl ++ nl ++ "Scaled by scale.") eq_refl).
    now exists "Area of the shape.", (nl ++ "Scaled by scale.").
  - apply (proj1 (proj2 (@gen_function_entry_shape add_function "(a, b=0)" eq_refl))
                 "Add two numbers." eq_refl).
    + discriminate.
    + intros Hnl. apply contains_spec in Hnl. discriminate.
Defined.

(** ** The class generator *)

Lemma is_method_not_dunder (function : object) :
  is_method function = true -> dunder function = false.
Proof.
  unfold is_method, dunder. intros [_ H]%andb_true_iff.
  now apply negb_true_iff in H.
Qed.

Lemma methods_without_dunder (contents : list object) :
  filter is_method (filter (fun function => negb (dunder function)) contents)
  = filter is_method contents.
Proof.
  induction contents as [|function contents IH]; simpl; [reflexivity|].
  destruct (dunder function) eqn:Hd; simpl.
  - destruct (is_method function) eqn:Hm; [|exact IH].
    apply is_method_not_dunder in Hm. congruence.
  - now rewrite IH.
Qed.

(** Taking the double-underscore members out of [dir] takes them out of
    what the lookup gives, and leaves a failing lookup as it is. *)
Lemma dir_contents_without_dunder (cls : object) :
  dir_contents (without_dunder cls)
  = (contents <- dir_contents cls ;;
     Return (filter (fun function => negb (dunder function)) contents)).
Proof.
  unfold dir_contents, without_dunder. cbn [dir].
  induction (dir cls) as [|[name [function|]] members IH]; [reflexivity| |].
  - cbn [filter snd]. destruct (dunder function) eqn:Hd; cbn [negb].
    + rewrite IH. cbn [comprehension getattr snd bind].
      destruct (comprehension getattr members); cbn [bind filter];
        [now rewrite Hd | reflexivity].
    + cbn [comprehension getattr snd bind]. rewrite IH.
      destruct (comprehension getattr members); cbn [bind filter];
        [now rewrite Hd | reflexivity].
  - reflexivity.
Qed.

(** C7. The entry of a class holds no entry for a member whose name starts
    with a double underscore, whatever the type and the signature of that
    member: the entry is the one of the class with all such members taken
    away, and the method entries it is made of are those of members whose
    names do not start with a double underscore. *)
Theorem gen_class_entry_skips_dunder (cls : object) :
  gen_class_entry cls = gen_class_entry (without_dunder cls)
  /\ forall out,
      gen_class_entry cls = Return out ->
      exists contents methods entries doc,
        dir_contents cls = Return contents
        /\ methods = filter is_method contents
        /\ Forall (fun function =>
                     Str.startswith (__name__ function) "__" = false) methods
        /\ Forall2 (fun function shown =>
                      exists entry,
                        gen_function_entry function = Return entry
                        /\ shown = textwrap.indent entry "    ")
                   methods entries
        /\ out = "class " ++ __name__ cls ++ ":" ++ nl
                 ++ doc ++ nl ++ Str.join nl entries ++ nl.
Proof.
  split.
  - unfold gen_class_entry. rewrite dir_contents_without_dunder.
    destruct (dir_contents cls) as [contents|e]; [|reflexivity].
    cbn [bind]. now rewrite methods_without_dunder.
  - intros out H. unfold gen_class_entry in H.
    apply bind_Return_inv in H as (contents & Hcontents & H).
    apply bind_Return_inv in H as (entries & Hentries & [= <-]).
    exists contents, (filter is_method contents), entries.
    exists (if truthy (__doc__ cls) then doc_block (fmt (__doc__ cls))
            else match entries with [] => "    ..." | _ :: _ => "" end).
    split; [exact Hcontents | split; [reflexivity | split; [|split]]].
    + apply Forall_forall. intros function [_ Hm]%filter_In.
      now apply is_method_not_dunder.
    + apply comprehension_Return in Hentries.
      induction Hentries as [|function shown l l' Hf _ IH]; constructor; auto.
      apply bind_Return_inv in Hf as (entry & Hentry & [= <-]). eauto.
    + now rewrite !app_assoc_string.
Qed.

Example gen_class_entry_shape : gen_class_entry shape_class = Return shape_entry.
Proof. reflexivity. Qed.

Lemma gen_class_entry_skips_dunder_witness :
  gen_class_entry shape_class = gen_class_entry (without_dunder shape_class)
  /\ exists contents methods entries doc,
      dir_contents shape_class = Return contents
      /\ methods = filter is_method contents
      /\ Forall (fun function =>
                   Str.startswith (__name__ function) "__" = false) methods
      /\ Forall2 (fun function shown =>
                    exists entry,
                      gen_function_entry function = Return entry
                      /\ shown = textwrap.indent entry "    ")
                 methods entries
      /\ shape_entry = "class " ++ __name__ shape_class ++ ":" ++ nl
                       ++ doc ++ nl ++ Str.join nl entries ++ nl.
Proof.
  split.
  - apply (proj1 (gen_class_entry_skips_dunder shape_class)).
  - apply (proj2 (gen_class_entry_skips_dunder shape_class) shape_entry).
    reflexivity.
Defined.

(** ** Sorting *)

Lemma str_le_trans (a b c : string) : str_le a b -> str_le b c -> str_le a c.
Proof.
  unfold str_le, String.leb.
  revert b c; induction a as [|x a IH]; intros [|y b] [|z c]; simpl;
    try congruence.
  unfold Ascii.compare.
  destruct (N.compare_spec (N_of_ascii x) (N_of_ascii y)) as [Hxy|Hxy|Hxy],
           (N.compare_spec (N_of_ascii y) (N_of_ascii z)) as [Hyz|Hyz|Hyz],
           (N.compare_spec (N_of_ascii x) (N_of_ascii z)) as [Hxz|Hxz|Hxz];
    try congruence; try lia.
  apply IH.
Qed.

Lemma str_le_total (a b : string) : str_le a b \/ str_le b a.
Proof. apply String.leb_total. Qed.

Lemma insert_sorted_perm (x : string) (l : list string) :
  Permutation (x :: l) (insert_sorted x l).
Proof.
  induction l as [|y l IH]; simpl; [reflexivity|].
  destruct (String.leb x y); [reflexivity|].
  rewrite perm_swap. now constructor.
Qed.

Lemma sorted_perm (l : list string) : Permutation l (sorted l).
Proof.
  induction l as [|x l IH]; simpl; [constructor|].
  rewrite <- insert_sorted_perm. now constructor.
Qed.

Lemma insert_sorted_sorted (x : string) (l : list string) :
  StronglySorted str_le l -> StronglySorted str_le (insert_sorted x l).
Proof.
  induction 1 as [|y l Hl IH Hy]; simpl.
  - repeat constructor.
  - destruct (String.leb x y) eqn:Hxy.
    + constructor; [now constructor|].
      constructor; [exact Hxy|].
      eapply Forall_impl; [|exact Hy].
      intros z Hz. now apply str_le_trans with y.
    + constructor; [exact IH|].
      apply Forall_forall. intros z Hz.
      apply Permutation_in with (l' := x :: l) in Hz;
        [|symmetry; apply insert_sorted_perm].
      destruct Hz as [<-|Hz].
      * destruct (str_le_total x y) as [H|H]; [unfold str_le in H; congruence | exact H].
      * now apply (proj1 (Forall_forall _ _) Hy).
Qed.

Lemma sorted_sorted (l : list string) : StronglySorted str_le (sorted l).
Proof.
  induction l as [|x l IH]; simpl; [constructor | now apply insert_sorted_sorted].
Qed.

(** ** The module aggregator *)

Lemma comprehension_Forall2 {A B : Type} (f : A -> result B) (l : list A) (bs : list B) :
  Forall2 (fun a b => f a = Return b) l bs -> comprehension f l = Return bs.
Proof.
  induction 1 as [|a b l bs Hab _ IH]; simpl; [reflexivity|].
  now rewrite Hab, IH.
Qed.

(** C3. The text returned by [genpyi] is the fixed header line followed by
    the entries generated for the supported members, each piece on a new
    line, the entries being arranged in increasing order of their own
    text. *)
Theorem genpyi_header_then_sorted
        (module : object) (objs : list object) (definitions : list string) :
  dir_contents module = Return objs ->
  Forall2 (fun obj entry => genentry obj = Return entry)
          (filter supported objs) definitions ->
  exists entries,
    Permutation definitions entries
    /\ StronglySorted str_le entries
    /\ genpyi module = Return (Str.join nl ("# flake8: noqa: PYI021" :: entries)).
Proof.
  intros Hobjs H%comprehension_Forall2.
  exists (sorted definitions).
  split; [apply sorted_perm | split; [apply sorted_sorted|]].
  unfold genpyi. rewrite Hobjs. cbn [bind]. now rewrite H.
Qed.

(** The members [Zeta] and [alpha] come out in the order of their entries
    ([class alpha] before [def Zeta]), not in the order of their names. *)
Lemma genpyi_header_then_sorted_witness :
  exists entries,
    Permutation
      ["def Zeta():" ++ nl ++ "    ..." ++ nl;
       "class alpha:" ++ nl ++ "    ..." ++ nl ++ nl] entries
    /\ StronglySorted str_le entries
    /\ genpyi mixed_module
       = Return (Str.join nl ("# flake8: noqa: PYI021" :: entries)).
Proof.
  apply (genpyi_header_then_sorted mixed_module
           [zeta_function; alpha_class; plain_value "int"]).
  - reflexivity.
  - simpl. repeat constructor.
Defined.

Example genpyi_mixed_module :
  genpyi mixed_module
  = Return ("# flake8: noqa: PYI021" ++ nl
            ++ "class alpha:" ++ nl ++ "    ..." ++ nl ++ nl ++ nl
            ++ "def Zeta():" ++ nl ++ "    ..." ++ nl).
Proof. reflexivity. Qed.

(** Whatever [genpyi] returns is of that form. *)
Lemma genpyi_Return (module : object) (out : string) :
  genpyi module = Return out ->
  exists objs definitions,
    dir_contents module = Return objs
    /\ Forall2 (fun obj entry => genentry obj = Return entry)
               (filter supported objs) definitions
    /\ out = Str.join nl (header :: sorted definitions).
Proof.
  unfold genpyi. intros (objs & Hobjs & H)%bind_Return_inv.
  apply bind_Return_inv in H as (definitions & H & [= <-]).
  exists objs, definitions.
  repeat split; [exact Hobjs | now apply comprehension_Return].
Qed.

(** ** Signatures made of simple clauses *)

Lemma all_chars_impl (p q : ascii -> bool) (s : string) :
  (forall c, p c = true -> q c = true) ->
  all_chars p s = true -> all_chars q s = true.
Proof.
  intros Hpq; induction s as [|c s IH]; simpl; [reflexivity|].
  intros [Hc Hs]%andb_true_iff. now rewrite (Hpq _ Hc), IH.
Qed.

Lemma ends_outside_all (p : ascii -> bool) (s : string) :
  Str.truthy s = true -> all_chars (fun c => negb (p c)) s = true ->
  ends_outside p s = true.
Proof.
  induction s as [|c s IH]; simpl; [discriminate|].
  intros _ [Hc Hs]%andb_true_iff.
  destruct s as [|d s]; [exact Hc | now apply IH].
Qed.

Lemma ends_outside_app (p : ascii -> bool) (s t : string) :
  ends_outside p t = true -> ends_outside p (s ++ t) = true.
Proof.
  intros Ht; induction s as [|c s IH]; simpl; [exact Ht|].
  destruct (s ++ t) eqn:E; [|exact IH].
  destruct s; simpl in E; [subst t|]; discriminate.
Qed.

Lemma rstrip_by_ends_outside (p : ascii -> bool) (s t : string) :
  ends_outside p s = true -> all_chars p t = true ->
  Str.rstrip_by p (s ++ t) = s.
Proof.
  intros Hs Ht. induction s as [|c s IH]; [discriminate|].
  simpl in Hs. destruct s as [|d s].
  - simpl. assert (E : Str.rstrip_by p t = "").
    { clear -Ht. induction t as [|c t IH]; simpl in *; [reflexivity|].
      apply andb_true_iff in Ht as [Hc Ht]. now rewrite (IH Ht), Hc. }
    rewrite E. now destruct (p c).
  - change (Str.rstrip_by p ((String c (String d s)) ++ t))
      with (match Str.rstrip_by p (String d s ++ t) with
            | EmptyString => if p c then EmptyString else String c EmptyString
            | r => String c r
            end).
    now rewrite (IH Hs).
Qed.

Lemma lstrip_by_outside (p : ascii -> bool) (c : ascii) (s : string) :
  p c = false -> Str.lstrip_by p (String c s) = String c s.
Proof. intros H; simpl; now rewrite H. Qed.

(** Splitting on a separator whose first character does not occur. *)
Lemma split_absent (ch : ascii) (rest s : string) :
  all_chars (fun c => negb (Ascii.eqb c ch)) s = true ->
  Str.split (String ch rest) s = [s].
Proof.
  unfold Str.split. induction s as [|c s IH]; [reflexivity|].
  simpl all_chars. intros [Hc Hs]%andb_true_iff.
  apply negb_true_iff, Ascii.eqb_neq in Hc.
  simpl. destruct (ascii_dec ch c) as [->|_]; [congruence|].
  now rewrite (IH Hs).
Qed.

Lemma split_from_skip (sep matched s : string) :
  Str.split_from sep (String.length matched) (matched ++ s)
  = Str.split_from sep 0 s.
Proof. induction matched as [|c matched IH]; [reflexivity | exact IH]. Qed.

Lemma prefix_app (p s : string) : prefix p (p ++ s) = true.
Proof. apply prefix_spec; eauto. Qed.

(** Splitting at the first occurrence of the separator. *)
Lemma split_first (ch : ascii) (rest a b : string) :
  all_chars (fun c => negb (Ascii.eqb c ch)) a = true ->
  Str.split (String ch rest) (a ++ String ch rest ++ b)
  = a :: Str.split (String ch rest) b.
Proof.
  unfold Str.split. induction a as [|c a IH].
  - intros _.
    change (Str.split_from (String ch rest) 0 (String ch (rest ++ b))
            = "" :: Str.split_from (String ch rest) 0 b).
    assert (Hp : prefix (String ch rest) (String ch (rest ++ b)) = true)
      by exact (prefix_app (String ch rest) b).
    cbn [Str.split_from]. rewrite Hp.
    replace (String.length (String ch rest) - 1) with (String.length rest)
      by (simpl; now rewrite Nat.sub_0_r).
    now rewrite split_from_skip.
  - simpl all_chars. intros [Hc Ha]%andb_true_iff.
    apply negb_true_iff, Ascii.eqb_neq in Hc.
    specialize (IH Ha). simpl in IH |- *.
    destruct (ascii_dec ch c) as [->|_]; [congruence|].
    now rewrite IH.
Qed.

Lemma plain_char_spec (c : ascii) :
  plain_char c = true ->
  Str.isspace c = false /\ Str.mem c "=,()" = false.
Proof.
  unfold plain_char. intros [H1 H2]%andb_true_iff.
  now apply negb_true_iff in H1, H2.
Qed.

(** A simple token holds none of the characters with a meaning. *)
Lemma plain_token_without (ch : ascii) (s : string) :
  Str.isspace ch = true \/ Str.mem ch "=,()" = true ->
  plain_token s = true ->
  all_chars (fun c => negb (Ascii.eqb c ch)) s = true.
Proof.
  intros Hch [_ Hs]%andb_true_iff.
  eapply all_chars_impl; [|exact Hs].
  intros c [Hsp Hmem]%plain_char_spec.
  apply negb_true_iff, Ascii.eqb_neq. intros ->.
  destruct Hch; congruence.
Qed.

Lemma plain_token_outside (q : ascii -> bool) (s : string) :
  (forall c, plain_char c = true -> q c = false) ->
  plain_token s = true ->
  ends_outside q s = true
  /\ exists c s', s = String c s' /\ q c = false.
Proof.
  intros Hq [Hne Hs]%andb_true_iff. split.
  - apply ends_outside_all; [exact Hne|].
    eapply all_chars_impl; [|exact Hs].
    intros c Hc. now rewrite (Hq c Hc).
  - destruct s as [|c s']; [discriminate|].
    simpl in Hs. apply andb_true_iff in Hs as [Hc _]. eauto.
Qed.

Lemma plain_not_space (c : ascii) : plain_char c = true -> Str.isspace c = false.
Proof. now intros [H _]%plain_char_spec. Qed.

Lemma plain_not_stripped (c : ascii) :
  plain_char c = true -> Str.mem c " ()" = false.
Proof.
  intros [Hsp Hmem]%plain_char_spec.
  simpl in Hmem |- *.
  repeat (apply orb_false_iff in Hmem as [? Hmem]).
  repeat (apply orb_false_iff; split); auto.
  apply Ascii.eqb_neq. intros ->. discriminate.
Qed.

Section Clause.

Variable p : param.
Hypothesis Hp : plain_param p = true.

Lemma written_cases :
  plain_token (fst p) = true
  /\ (snd p = None /\ written p = fst p
      \/ exists default,
          snd p = Some default /\ plain_token default = true
          /\ written p = fst p ++ "=" ++ default).
Proof.
  unfold plain_param in Hp. apply andb_true_iff in Hp as [Hname Hdef].
  split; [exact Hname|]. unfold written.
  destruct (snd p) as [default|]; [right; eauto | left; auto].
Qed.

Lemma written_without (ch : ascii) :
  ch <> "="%char ->
  Str.isspace ch = true \/ Str.mem ch "=,()" = true ->
  all_chars (fun c => negb (Ascii.eqb c ch)) (written p) = true.
Proof.
  intros Hne Hch.
  destruct written_cases as [Hname [[_ ->] | (default & _ & Hdef & ->)]].
  - now apply plain_token_without.
  - rewrite !all_chars_app.
    rewrite (plain_token_without ch (fst p)), (plain_token_without ch default)
      by assumption.
    cbn [all_chars].
    destruct (Ascii.eqb_spec "="%char ch); [congruence | reflexivity].
Qed.

Lemma written_outside (q : ascii -> bool) :
  (forall c, plain_char c = true -> q c = false) ->
  ends_outside q (written p) = true
  /\ exists c s', written p = String c s' /\ q c = false.
Proof.
  intros Hq.
  destruct written_cases as [Hname [[_ ->] | (default & _ & Hdef & ->)]].
  - now apply plain_token_outside.
  - split.
    + apply ends_outside_app, ends_outside_app.
      now apply plain_token_outside.
    + destruct (@plain_token_outside q _ Hq Hname) as [_ (c & s' & -> & Hc)].
      simpl; eauto.
Qed.

(** Stripping whitespace leaves the clause as it is. *)
Lemma strip_written : Str.strip (written p) = written p.
Proof.
  destruct (written_outside Str.isspace plain_not_space)
    as [Hend (c & s' & E & Hc)].
  unfold Str.strip. rewrite E, (@lstrip_by_outside Str.isspace c s' Hc), <- E.
  rewrite <- (app_empty_r (written p)) at 1.
  now apply rstrip_by_ends_outside.
Qed.

(** The loop body turns the written clause into the shown one. *)
Lemma parse_arg_written : parse_arg (written p) = shown p.
Proof.
  unfold parse_arg, shown.
  destruct written_cases as [Hname [[Hnone ->] | (default & Hsome & Hdef & ->)]].
  - rewrite split_absent by (apply plain_token_without; auto).
    rewrite Hnone. reflexivity.
  - rewrite split_first by (apply plain_token_without; auto).
    rewrite split_absent by (apply plain_token_without; auto).
    rewrite Hsome. simpl.
    apply andb_true_iff in Hdef as [-> _]. reflexivity.
Qed.

End Clause.

Lemma written_without_comma (p : param) :
  plain_param p = true ->
  all_chars (fun c => negb (Ascii.eqb c ","%char)) (written p) = true.
Proof.
  intros Hp. apply written_without; [exact Hp | discriminate | now right].
Qed.

(** The clauses of a body are recovered by splitting it. *)
Lemma body_split (p : param) (ps : list param) :
  forallb plain_param (p :: ps) = true ->
  Str.split ", " (Str.join ", " (map written (p :: ps)))
  = map written (p :: ps).
Proof.
  revert p; induction ps as [|p' ps IH]; intros p Hplain;
    simpl in Hplain; apply andb_true_iff in Hplain as [Hp Hps].
  - simpl. now apply split_absent, written_without_comma.
  - change (Str.join ", " (map written (p :: p' :: ps)))
      with (written p ++ ", " ++ Str.join ", " (map written (p' :: ps))).
    rewrite split_first by now apply written_without_comma.
    change (map written (p :: p' :: ps))
      with (written p :: map written (p' :: ps)).
    f_equal. now apply IH.
Qed.

Lemma body_ends (p : param) (ps : list param) :
  forallb plain_param (p :: ps) = true ->
  ends_outside (fun c => Str.mem c " ()")
               (Str.join ", " (map written (p :: ps))) = true.
Proof.
  revert p; induction ps as [|p' ps IH]; intros p Hplain;
    simpl in Hplain; apply andb_true_iff in Hplain as [Hp Hps].
  - simpl. now apply (written_outside p Hp (fun c => Str.mem c " ()")), plain_not_stripped.
  - change (Str.join ", " (map written (p :: p' :: ps)))
      with (written p ++ ", " ++ Str.join ", " (map written (p' :: ps))).
    apply ends_outside_app, ends_outside_app.
    now apply IH.
Qed.

Lemma body_starts (p : param) (ps : list param) :
  forallb plain_param (p :: ps) = true ->
  exists c s,
    Str.join ", " (map written (p :: ps)) = String c s
    /\ Str.mem c " ()" = false.
Proof.
  intros Hplain. simpl in Hplain. apply andb_true_iff in Hplain as [Hp _].
  destruct (written_outside p Hp (fun c => Str.mem c " ()") plain_not_stripped)
    as [_ (c & s & E & Hc)].
  destruct ps as [|p' ps].
  - simpl. eauto.
  - change (Str.join ", " (map written (p :: p' :: ps)))
      with (written p ++ ", " ++ Str.join ", " (map written (p' :: ps))).
    rewrite E. simpl. eauto.
Qed.

(** Stripping the parentheses leaves the body. *)
Lemma body_stripped (p : param) (ps : list param) :
  forallb plain_param (p :: ps) = true ->
  Str.strip_chars " ()" ("(" ++ Str.join ", " (map written (p :: ps)) ++ ")")
  = Str.join ", " (map written (p :: ps)).
Proof.
  intros Hplain.
  destruct (body_starts _ _ Hplain) as (c & s & E & Hc).
  pose proof (body_ends _ _ Hplain) as Hend.
  set (body := Str.join ", " (map written (p :: ps))) in *.
  unfold Str.strip_chars.
  change (Str.lstrip_by (fun c => Str.mem c " ()") ("(" ++ body ++ ")"))
    with (Str.lstrip_by (fun c => Str.mem c " ()") (body ++ ")")).
  rewrite E at 1. simpl append.
  rewrite (@lstrip_by_outside (fun c => Str.mem c " ()") c (s ++ ")") Hc).
  change (String c (s ++ ")")) with (String c s ++ ")"). rewrite <- E.
  now apply rstrip_by_ends_outside.
Qed.

Lemma clauses_parsed (params : list param) :
  forallb plain_param params = true ->
  map parse_arg (map Str.strip (map written params)) = map shown params.
Proof.
  induction params as [|p ps IH]; intros Hplain; [reflexivity|].
  simpl in Hplain. apply andb_true_iff in Hplain as [Hp Hps].
  simpl. now rewrite (strip_written p Hp), (parse_arg_written p Hp), (IH Hps).
Qed.

(** X10. A signature made of simple clauses is parsed clause by clause:
    the order is kept, [$self] becomes [self], and each default is written,
    unchanged, after an equals sign with a space on each side. *)
Lemma parse_signature_simple_clauses (params : list param) (docstr : option string) :
  params <> [] ->
  forallb plain_param params = true ->
  parse_signature ("(" ++ Str.join ", " (map written params) ++ ")") docstr
  = "(" ++ Str.join ", " (map shown params) ++ ")".
Proof.
  intros Hsome Hplain. destruct params as [|p ps]; [congruence|].
  unfold parse_signature.
  now rewrite body_stripped, body_split, clauses_parsed.
Qed.

Lemma parse_signature_simple_clauses_witness :
  parse_signature "(a, b=1, $self)" None = "(a, b = 1, self)".
Proof.
  apply (parse_signature_simple_clauses
           [("a", None); ("b", Some "1"); ("$self", None)] None).
  - discriminate.
  - reflexivity.
Defined.

(** ** Reproducibility of the module text *)

(** A sorted list is determined by its elements. *)
Lemma sorted_unique (l l' : list string) :
  StronglySorted str_le l -> StronglySorted str_le l' ->
  Permutation l l' -> l = l'.
Proof.
  revert l'; induction l as [|x l IH]; intros l' Hl Hl' HP.
  - now apply Permutation_nil in HP.
  - destruct l' as [|y l'].
    + symmetry in HP. now apply Permutation_nil_cons in HP.
    + apply StronglySorted_inv in Hl as [Hl Hx].
      apply StronglySorted_inv in Hl' as [Hl' Hy].
      assert (E : x = y).
      { assert (Hxin : In x (y :: l'))
          by (apply Permutation_in with (x :: l); [exact HP | now left]).
        assert (Hyin : In y (x :: l))
          by (apply Permutation_in with (y :: l');
              [now symmetry | now left]).
        destruct Hxin as [->|Hxin]; [reflexivity|].
        destruct Hyin as [->|Hyin]; [reflexivity|].
        apply String.leb_antisym.
        - exact (proj1 (Forall_forall _ _) Hx y Hyin).
        - exact (proj1 (Forall_forall _ _) Hy x Hxin). }
      subst y. f_equal. apply IH; auto.
      now apply Permutation_cons_inv in HP.
Qed.

Lemma sorted_Permutation (l l' : list string) :
  Permutation l l' -> sorted l = sorted l'.
Proof.
  intros HP. apply sorted_unique; try apply sorted_sorted.
  now rewrite <- !sorted_perm.
Qed.

Lemma filter_Permutation {A : Type} (f : A -> bool) (l l' : list A) :
  Permutation l l' -> Permutation (filter f l) (filter f l').
Proof.
  induction 1 as [|a l l' _ IH|a b l|l l' l'' _ IH _ IH']; simpl.
  - constructor.
  - destruct (f a); [now constructor | exact IH].
  - destruct (f a), (f b); try reflexivity. apply perm_swap.
  - now transitivity (filter f l').
Qed.

Lemma comprehension_Permutation {A B : Type} (f : A -> result B)
      (l l' : list A) (bs : list B) :
  Permutation l l' ->
  comprehension f l = Return bs ->
  exists bs', comprehension f l' = Return bs' /\ Permutation bs bs'.
Proof.
  intros HP; revert bs.
  induction HP as [|a l l' _ IH|a b l|l l' l'' _ IH _ IH']; intros bs; simpl.
  - intros [= <-]; eauto.
  - destruct (f a) as [b|]; simpl; [|discriminate].
    destruct (comprehension f l) as [bs0|]; simpl; [|discriminate].
    intros [= <-]. destruct (IH bs0 eq_refl) as (bs' & -> & HP').
    simpl; eauto.
  - destruct (f a) as [a'|]; simpl; [|destruct (f b); discriminate].
    destruct (f b) as [b'|]; simpl; [|discriminate].
    destruct (comprehension f l) as [bs0|]; simpl; [|discriminate].
    intros [= <-]. eexists; split; [reflexivity | apply perm_swap].
  - intros H. destruct (IH bs H) as (bs' & H' & HP').
    destruct (IH' bs' H') as (bs'' & H'' & HP'').
    exists bs''. split; [exact H'' | now transitivity bs'].
Qed.

(** ** What the generators raise themselves *)

(** A native callable whose [__text_signature__] is [None] makes the
    function generator fail on [sig.strip], and a class holding it as a
    method fails with it. *)
Example gen_function_entry_without_signature :
  gen_function_entry (Object MethodDescriptorType "format" None (Some None) [])
  = Raise (AttributeError "strip").
Proof. reflexivity. Qed.

Example gen_class_entry_without_signature :
  genentry text_class = Raise (AttributeError "strip").
Proof. reflexivity. Qed.

(** A class that lists a name it cannot resolve makes the class generator
    fail on the lookup of that name, before any method is looked at. *)
Example gen_class_entry_unresolved :
  genentry meta_class = Raise (AttributeError "__abstractmethods__").
Proof. reflexivity. Qed.

(** * Further properties of the generators *)

(** ** One clause of a signature *)

(** Splitting on a one-character separator, one character at a time. *)
Lemma split_char_cons (ch c : ascii) (s : string) :
  Str.split (String ch "") (String c s)
  = if Ascii.eqb c ch
    then "" :: Str.split (String ch "") s
    else match Str.split (String ch "") s with
         | piece :: pieces => String c piece :: pieces
         | [] => [String c ""]
         end.
Proof.
  unfold Str.split.
  change (Str.split_from (String ch "") 0 (String c s))
    with (if prefix (String ch "") (String c s)
          then "" :: Str.split_from (String ch "") 0 s
          else match Str.split_from (String ch "") 0 s with
               | piece :: pieces => String c piece :: pieces
               | [] => [String c ""]
               end).
  replace (prefix (String ch "") (String c s)) with (Ascii.eqb c ch);
    [reflexivity|].
  simpl. destruct (ascii_dec ch c) as [->|Hne].
  - rewrite Ascii.eqb_refl. now destruct s.
  - apply Ascii.eqb_neq. congruence.
Qed.

Lemma split_char_length (ch : ascii) (s : string) :
  List.length (Str.split (String ch "") s) = S (count_char ch s).
Proof.
  induction s as [|c s IH]; [reflexivity|].
  rewrite split_char_cons. simpl count_char.
  destruct (Ascii.eqb c ch); simpl; [now rewrite IH|].
  destruct (Str.split (String ch "") s); simpl in *; congruence.
Qed.

Lemma split_char_head (ch : ascii) (s : string) :
  nth 0 (Str.split (String ch "") s) "" = before_char ch s.
Proof.
  induction s as [|c s IH]; [reflexivity|].
  rewrite split_char_cons. simpl before_char.
  destruct (Ascii.eqb c ch); [reflexivity|].
  destruct (Str.split (String ch "") s); simpl in *; congruence.
Qed.

Lemma split_char_none (ch : ascii) (s : string) :
  count_char ch s = 0 -> Str.split (String ch "") s = [s].
Proof.
  induction s as [|c s IH]; [reflexivity|].
  rewrite split_char_cons. simpl count_char.
  destruct (Ascii.eqb c ch); [discriminate|].
  intros H. now rewrite (IH H).
Qed.

Lemma split_char_second (ch : ascii) (s : string) :
  count_char ch s = 1 ->
  nth 1 (Str.split (String ch "") s) "" = after_char ch s.
Proof.
  induction s as [|c s IH]; [discriminate|].
  rewrite split_char_cons. simpl count_char. simpl after_char.
  destruct (Ascii.eqb c ch).
  - intros [= H]. now rewrite (split_char_none _ _ H).
  - intros H. specialize (IH H).
    destruct (Str.split (String ch "") s); simpl in *; [|exact IH].
    now rewrite <- IH.
Qed.

(** X1. What the loop of [parse_signature] makes of one clause depends on
    how many equals signs the clause holds.  The name is the text before
    the first equals sign, with [$self] renamed.  With exactly one equals
    sign and some text after it, that text follows the name after
    [ = ]; with exactly one and nothing after it, or with none, or with
    two or more, the clause is shown as the bare name. *)
Theorem parse_arg_by_equals (argstr : string) :
  let argname := rename_self (before_char "=" argstr) in
  (count_char "=" argstr = 1 ->
   after_char "=" argstr <> "" ->
   parse_arg argstr = argname ++ " = " ++ after_char "=" argstr)
  /\ (count_char "=" argstr = 1 ->
      after_char "=" argstr = "" ->
      parse_arg argstr = argname)
  /\ (count_char "=" argstr <> 1 -> parse_arg argstr = argname).
Proof.
  unfold parse_arg, rename_self.
  rewrite split_char_head, split_char_length.
  split; [|split].
  - intros Hone Hafter. rewrite Hone, (split_char_second _ _ Hone).
    simpl. destruct (after_char "=" argstr); [congruence | reflexivity].
  - intros Hone Hafter. rewrite Hone, (split_char_second _ _ Hone), Hafter.
    simpl. now rewrite !app_empty_r.
  - intros Hmany.
    destruct (Nat.eqb_spec (S (count_char "=" argstr)) 2) as [E|_];
      [congruence|].
    simpl. now rewrite !app_empty_r.
Qed.

Lemma parse_arg_by_equals_witness :
  parse_arg "b=1" = "b = 1"
  /\ parse_arg "b=" = "b"
  /\ parse_arg ("sep=" ++ dquote ++ "=" ++ dquote) = "sep".
Proof.
  split; [|split].
  - apply (proj1 (parse_arg_by_equals "b=1")); [reflexivity | discriminate].
  - apply (proj1 (proj2 (parse_arg_by_equals "b="))); reflexivity.
  - apply (proj2 (proj2 (parse_arg_by_equals ("sep=" ++ dquote ++ "=" ++ dquote)))).
    discriminate.
Defined.

(** ** What surrounds the clauses *)

Lemma rstrip_by_all (p : ascii -> bool) (s : string) :
  all_chars p s = true -> Str.rstrip_by p s = "".
Proof.
  induction s as [|c s IH]; simpl; [reflexivity|].
  intros [Hc Hs]%andb_true_iff. now rewrite (IH Hs), Hc.
Qed.

Lemma lstrip_by_app_all (p : ascii -> bool) (pre s : string) :
  all_chars p pre = true -> Str.lstrip_by p (pre ++ s) = Str.lstrip_by p s.
Proof.
  induction pre as [|c pre IH]; simpl; [reflexivity|].
  intros [Hc Hpre]%andb_true_iff. now rewrite Hc, IH.
Qed.

Lemma rstrip_by_app_all (p : ascii -> bool) (s post : string) :
  all_chars p post = true -> Str.rstrip_by p (s ++ post) = Str.rstrip_by p s.
Proof.
  intros Hpost. induction s as [|c s IH]; simpl.
  - now apply rstrip_by_all.
  - now rewrite IH.
Qed.

Lemma strip_by_app_all (p : ascii -> bool) (s post : string) :
  all_chars p post = true ->
  Str.rstrip_by p (Str.lstrip_by p (s ++ post))
  = Str.rstrip_by p (Str.lstrip_by p s).
Proof.
  intros Hpost. induction s as [|c s IH]; simpl.
  - now rewrite lstrip_by_all.
  - destruct (p c); [exact IH|].
    change (String c (s ++ post)) with (String c s ++ post).
    now apply rstrip_by_app_all.
Qed.

(** X2. Parentheses and spaces at either end of the signature, in any
    number, are dropped before the clauses are read: they change nothing
    in the result.  So the enclosing parentheses are not required, and
    parentheses that end the last default are lost with them. *)
Theorem parse_signature_outer_ignored (pre sig post : string) (docstr : option string) :
  all_chars (fun c => Str.mem c " ()") pre = true ->
  all_chars (fun c => Str.mem c " ()") post = true ->
  parse_signature (pre ++ sig ++ post) docstr = parse_signature sig docstr.
Proof.
  intros Hpre Hpost. unfold parse_signature, Str.strip_chars.
  now rewrite lstrip_by_app_all, strip_by_app_all.
Qed.

Lemma parse_signature_outer_ignored_witness :
  parse_signature ("(" ++ "a, b=foo" ++ "())") None
  = parse_signature "a, b=foo" None.
Proof.
  apply (parse_signature_outer_ignored "(" "a, b=foo" "())" None); reflexivity.
Defined.

(** ** When the generators return *)











(** ** The layout of a class entry *)

Lemma doc_block_multiline (doc : string) :
  (exists before after, doc = before ++ nl ++ after) ->
  truthy (Some doc) = true
  /\ doc_block doc
     = "    " ++ triple_quote ++ nl ++ textwrap.indent doc "    " ++ nl
       ++ "    " ++ triple_quote.
Proof.
  intros Hnl%contains_spec. split.
  - exact (contains_truthy nl doc eq_refl Hnl).
  - unfold doc_block. now rewrite Hnl.
Qed.

Lemma doc_block_inline (doc : string) :
  doc <> "" ->
  ~ (exists before after, doc = before ++ nl ++ after) ->
  truthy (Some doc) = true
  /\ doc_block doc = "    " ++ triple_quote ++ doc ++ triple_quote.
Proof.
  intros Hne Hnl. split; [now destruct doc|].
  unfold doc_block.
  destruct (Str.contains nl doc) eqn:Hin; [|reflexivity].
  now apply contains_spec in Hin.
Qed.

Lemma methods_comprehension (members : list object) (entries : list string) :
  Forall2 (fun function entry => gen_function_entry function = Return entry)
          members entries ->
  comprehension
    (fun function =>
       entry <- gen_function_entry function ;;
       Return (textwrap.indent entry "    "))
    members
  = Return (map (fun entry => textwrap.indent entry "    ") entries).
Proof.
  induction 1 as [|function entry members entries H _ IH]; simpl;
    [reflexivity|].
  now rewrite H, IH.
Qed.

(** X4. The entry of a class whose listed names resolve and whose
    selected methods all generate reads:
    the [class] line, the documentation part, a line break, the method
    entries (each indented by four spaces) joined by line breaks, and a
    line break.  The documentation part is the triple-quoted block for a
    docstring with a line break, the inline triple-quoted string for a
    docstring on one line, the placeholder when the class has neither
    docstring nor methods, and nothing at all when it has no docstring
    but does have methods. *)
Theorem gen_class_entry_layout
        (cls : object) (contents : list object) (entries : list string) :
  dir_contents cls = Return contents ->
  Forall2 (fun function entry => gen_function_entry function = Return entry)
          (filter is_method contents) entries ->
  let methods := map (fun entry => textwrap.indent entry "    ") entries in
  let entry doc :=
    Return ("class " ++ __name__ cls ++ ":" ++ nl
            ++ doc ++ nl ++ Str.join nl methods ++ nl) in
  (forall doc,
      __doc__ cls = Some doc ->
      (exists before after, doc = before ++ nl ++ after) ->
      gen_class_entry cls
      = entry ("    " ++ triple_quote ++ nl ++ textwrap.indent doc "    " ++ nl
               ++ "    " ++ triple_quote))
  /\ (forall doc,
         __doc__ cls = Some doc ->
         doc <> "" ->
         ~ (exists before after, doc = before ++ nl ++ after) ->
         gen_class_entry cls
         = entry ("    " ++ triple_quote ++ doc ++ triple_quote))
  /\ (__doc__ cls = None \/ __doc__ cls = Some "" ->
      entries = [] ->
      gen_class_entry cls
      = Return ("class " ++ __name__ cls ++ ":" ++ nl ++ "    ..." ++ nl ++ nl))
  /\ (__doc__ cls = None \/ __doc__ cls = Some "" ->
      entries <> [] ->
      gen_class_entry cls
      = Return ("class " ++ __name__ cls ++ ":" ++ nl
                ++ nl ++ Str.join nl methods ++ nl)).
Proof.
  intros Hcontents Hentries methods entry.
  unfold gen_class_entry. rewrite Hcontents. cbn [bind].
  rewrite (methods_comprehension _ _ Hentries).
  fold methods. cbn [bind].
  repeat split.
  - intros doc Hdoc Hnl.
    destruct (doc_block_multiline doc Hnl) as [Ht Hblock].
    rewrite Hdoc, Ht. cbn [fmt]. rewrite Hblock.
    unfold entry. now rewrite !app_assoc_string.
  - intros doc Hdoc Hne Hnl.
    destruct (doc_block_inline doc Hne Hnl) as [Ht Hblock].
    rewrite Hdoc, Ht. cbn [fmt]. rewrite Hblock.
    unfold entry. now rewrite !app_assoc_string.
  - intros Hdoc ->. subst methods.
    destruct Hdoc as [-> | ->]; reflexivity.
  - intros Hdoc Hsome. subst methods.
    destruct entries as [|e entries']; [congruence|].
    destruct Hdoc as [-> | ->]; reflexivity.
Qed.

Lemma gen_class_entry_layout_witness :
  gen_class_entry shape_class
  = Return ("class " ++ "Shape" ++ ":" ++ nl ++ nl
            ++ Str.join nl
                 [textwrap.indent
                    ("def area(self, scale = 1):" ++ nl
                     ++ "    " ++ triple_quote ++ nl
                     ++ "    Area of the shape." ++ nl ++ nl
                     ++ "    Scaled by scale." ++ nl
                     ++ "    " ++ triple_quote ++ nl) "    "]
            ++ nl)
  /\ gen_class_entry alpha_class
     = Return ("class " ++ "alpha" ++ ":" ++ nl ++ "    ..." ++ nl ++ nl).
Proof.
  split.
  - apply (gen_class_entry_layout shape_class [repr_method; area_method]
             ["def area(self, scale = 1):" ++ nl
              ++ "    " ++ triple_quote ++ nl
              ++ "    Area of the shape." ++ nl ++ nl
              ++ "    Scaled by scale." ++ nl
              ++ "    " ++ triple_quote ++ nl]).
    + reflexivity.
    + repeat constructor.
    + now left.
    + discriminate.
  - apply (gen_class_entry_layout alpha_class [] []).
    + reflexivity.
    + constructor.
    + now left.
    + reflexivity.
Defined.

(** ** When the module aggregator returns *)




(** ** The order and the ends of the module text *)

Lemma gen_function_entry_text (function : object) (entry : string) :
  gen_function_entry function = Return entry ->
  exists rest, entry = "def " ++ rest ++ nl.
Proof.
  unfold gen_function_entry. intros (signature & _ & [= <-])%bind_Return_inv.
  exists (__name__ function ++ signature ++ ":" ++ nl
          ++ (if truthy (__doc__ function)
              then doc_block (fmt (__doc__ function)) else "    ...")).
  now rewrite !app_assoc_string.
Qed.

Lemma gen_class_entry_text (cls : object) (entry : string) :
  gen_class_entry cls = Return entry ->
  exists rest, entry = "class " ++ rest ++ nl.
Proof.
  unfold gen_class_entry. intros (contents & _ & H)%bind_Return_inv.
  apply bind_Return_inv in H as (methods & _ & [= <-]).
  exists (__name__ cls ++ ":" ++ nl
          ++ (if truthy (__doc__ cls) then doc_block (fmt (__doc__ cls))
              else match methods with [] => "    ..." | _ :: _ => "" end)
          ++ nl ++ Str.join nl methods).
  now rewrite !app_assoc_string.
Qed.

Lemma str_le_class_def (a b : string) : str_le ("class " ++ a) ("def " ++ b).
Proof. reflexivity. Qed.

Lemma StronglySorted_app {A : Type} (R : A -> A -> Prop) (l1 l2 : list A) :
  StronglySorted R l1 -> StronglySorted R l2 ->
  (forall x y, In x l1 -> In y l2 -> R x y) ->
  StronglySorted R (l1 ++ l2).
Proof.
  induction 1 as [|x l1 Hl1 IH Hx]; intros Hl2 Hcross; simpl; [exact Hl2|].
  constructor.
  - apply IH; [exact Hl2|]. intros a b Ha Hb. apply Hcross; simpl; auto.
  - apply Forall_app. split; [exact Hx|].
    apply Forall_forall. intros y Hy. apply Hcross; simpl; auto.
Qed.

Lemma filter_filter_implies {A : Type} (f g : A -> bool) (l : list A) :
  (forall x, f x = true -> g x = true) ->
  filter f (filter g l) = filter f l.
Proof.
  intros Hfg. induction l as [|x l IH]; simpl; [reflexivity|].
  destruct (g x) eqn:Hg; simpl; [now rewrite IH|].
  destruct (f x) eqn:Hf; [|exact IH].
  apply Hfg in Hf. congruence.
Qed.

Lemma is_function_supported (obj : object) :
  is_function obj = true -> supported obj = true.
Proof.
  unfold is_function. intros H%type_in_spec.
  apply supported_spec. now left.
Qed.

Lemma is_class_supported (obj : object) :
  is_class obj = true -> supported obj = true.
Proof.
  unfold is_class. intros [_ H]%andb_true_iff.
  apply supported_spec. right.
  now destruct (pytype_eqb_spec (typeof obj) type).
Qed.

(** The entries of the supported members, sorted out by kind. *)
Lemma entries_by_kind (members : list object) (definitions : list string) :
  Forall (fun obj => supported obj = true) members ->
  Forall2 (fun obj entry => genentry obj = Return entry) members definitions ->
  exists classes functions,
    Forall2 (fun obj entry => gen_class_entry obj = Return entry)
            (filter is_class members) classes
    /\ Forall2 (fun obj entry => gen_function_entry obj = Return entry)
               (filter is_function members) functions
    /\ Permutation definitions (classes ++ functions).
Proof.
  intros Hsup H.
  induction H as [|obj entry members definitions Hobj _ IH].
  - exists [], []. repeat constructor.
  - apply Forall_cons_iff in Hsup as [Hobj_sup Hsup].
    destruct (IH Hsup) as (classes & functions & Hc & Hf & HP).
    simpl. unfold is_class at 1.
    destruct (is_function obj) eqn:Hfun; simpl.
    + exists classes, (entry :: functions). repeat split; auto.
      * constructor; auto.
        unfold is_function in Hfun. apply type_in_spec in Hfun.
        now rewrite <- (genentry_function obj Hfun).
      * now apply Permutation_cons_app.
    + apply supported_spec in Hobj_sup as [Hin | Hcls].
      * apply type_in_spec in Hin. unfold is_function in Hfun. congruence.
      * rewrite Hcls. simpl.
        exists (entry :: classes), functions. repeat split; auto.
        -- constructor; auto. now rewrite <- (genentry_class obj Hcls).
        -- simpl. now constructor.
Qed.

(** X6. In the text of a module every class entry comes before every
    function entry, whatever the names: after the header come the entries
    of the classes, sorted among themselves, and then the entries of the
    native callables, sorted among themselves. *)
Theorem genpyi_classes_first (module : object) (objs : list object) (out : string) :
  dir_contents module = Return objs ->
  genpyi module = Return out ->
  exists classes functions,
    Forall2 (fun obj entry => gen_class_entry obj = Return entry)
            (filter is_class objs) classes
    /\ Forall2 (fun obj entry => gen_function_entry obj = Return entry)
               (filter is_function objs) functions
    /\ out = Str.join nl (header :: (sorted classes ++ sorted functions)%list).
Proof.
  intros Hobjs (objs' & definitions & Hobjs' & H & ->)%genpyi_Return.
  assert (objs' = objs) by congruence. subst objs'.
  destruct (entries_by_kind (filter supported objs) definitions)
    as (classes & functions & Hc & Hf & HP); [|exact H|].
  { apply Forall_forall. now intros obj [_ Hsup]%filter_In. }
  rewrite (filter_filter_implies is_class supported _ is_class_supported) in Hc.
  rewrite (filter_filter_implies is_function supported _ is_function_supported) in Hf.
  exists classes, functions. repeat split; auto.
  do 2 f_equal.
  apply sorted_unique.
  - apply sorted_sorted.
  - apply StronglySorted_app; try apply sorted_sorted.
    intros x y Hx Hy.
    apply Permutation_in with (l' := classes) in Hx;
      [|symmetry; apply sorted_perm].
    apply Permutation_in with (l' := functions) in Hy;
      [|symmetry; apply sorted_perm].
    assert (Hx' : exists rest, x = "class " ++ rest).
    { clear -Hc Hx.
      induction Hc as [|obj entry l l' Hobj _ IH]; [contradiction|].
      destruct Hx as [->|Hx]; [|now apply IH].
      apply gen_class_entry_text in Hobj as [rest ->]. eauto. }
    assert (Hy' : exists rest, y = "def " ++ rest).
    { clear -Hf Hy.
      induction Hf as [|obj entry l l' Hobj _ IH]; [contradiction|].
      destruct Hy as [->|Hy]; [|now apply IH].
      apply gen_function_entry_text in Hobj as [rest ->]. eauto. }
    destruct Hx' as [a ->], Hy' as [b ->]. apply str_le_class_def.
  - rewrite <- sorted_perm, HP.
    apply Permutation_app; apply sorted_perm.
Qed.

Lemma genpyi_classes_first_witness :
  exists classes functions,
    Forall2 (fun obj entry => gen_class_entry obj = Return entry)
            (filter is_class [zeta_function; alpha_class; plain_value "int"])
            classes
    /\ Forall2 (fun obj entry => gen_function_entry obj = Return entry)
               (filter is_function [zeta_function; alpha_class; plain_value "int"])
               functions
    /\ "# flake8: noqa: PYI021" ++ nl
       ++ "class alpha:" ++ nl ++ "    ..." ++ nl ++ nl ++ nl
       ++ "def Zeta():" ++ nl ++ "    ..." ++ nl
       = Str.join nl (header :: (sorted classes ++ sorted functions)%list).
Proof.
  apply (genpyi_classes_first mixed_module); reflexivity.
Defined.

Lemma genentry_text_end (obj : object) (entry : string) :
  genentry obj = Return entry -> ends_with entry nl.
Proof.
  unfold genentry, ends_with.
  destruct (type_in (typeof obj) FUNCTION_TYPES).
  - intros [rest ->]%gen_function_entry_text.
    exists ("def " ++ rest). now rewrite app_assoc_string.
  - destruct (pytype_eqb (typeof obj) type); [|discriminate].
    intros [rest ->]%gen_class_entry_text.
    exists ("class " ++ rest). now rewrite app_assoc_string.
Qed.

Lemma join_ends (sep suffix : string) (pieces : list string) :
  pieces <> [] ->
  Forall (fun piece => ends_with piece suffix) pieces ->
  ends_with (Str.join sep pieces) suffix.
Proof.
  intros Hsome Hall.
  induction Hall as [|piece pieces Hpiece Hall IH]; [congruence|].
  destruct pieces as [|piece' pieces]; [exact Hpiece|].
  destruct IH as [t Ht]; [discriminate|].
  change (Str.join sep (piece :: piece' :: pieces))
    with (piece ++ sep ++ Str.join sep (piece' :: pieces)).
  rewrite Ht. exists (piece ++ sep ++ t).
  now rewrite !app_assoc_string.
Qed.

(** X7. The text of a module without supported members is the header
    line alone, with no line break after it.  With at least one supported
    member the text is the header line, a line break, and a body that
    ends with a line break. *)
Theorem genpyi_text_ends (module : object) (objs : list object) (out : string) :
  dir_contents module = Return objs ->
  genpyi module = Return out ->
  (filter supported objs = [] -> out = "# flake8: noqa: PYI021")
  /\ (filter supported objs <> [] ->
      exists body, out = "# flake8: noqa: PYI021" ++ nl ++ body ++ nl).
Proof.
  intros Hobjs (objs' & definitions & Hobjs' & H & ->)%genpyi_Return.
  assert (objs' = objs) by congruence. subst objs'. split.
  - intros Hnone. rewrite Hnone in H. now inversion H.
  - intros Hsome.
    assert (Hends : Forall (fun entry => ends_with entry nl) (sorted definitions)).
    { apply Forall_forall. intros entry Hin.
      apply Permutation_in with (l' := definitions) in Hin;
        [|symmetry; apply sorted_perm].
      clear -H Hin.
      induction H as [|obj e l l' Hobj _ IH]; [contradiction|].
      destruct Hin as [->|Hin]; [|now apply IH].
      now apply genentry_text_end in Hobj. }
    assert (Hlen : sorted definitions <> []).
    { intros E. pose proof (sorted_perm definitions) as HP.
      rewrite E in HP. apply Permutation_sym, Permutation_nil in HP.
      subst definitions. inversion H as [E'|]. congruence. }
    destruct (join_ends nl nl (sorted definitions) Hlen Hends) as [body Hbody].
    exists body.
    destruct (sorted definitions) as [|entry entries]; [congruence|].
    change (Str.join nl (header :: entry :: entries))
      with (header ++ nl ++ Str.join nl (entry :: entries)).
    now rewrite Hbody.
Qed.

Lemma genpyi_text_ends_witness :
  "# flake8: noqa: PYI021" = "# flake8: noqa: PYI021"
  /\ exists body,
      "# flake8: noqa: PYI021" ++ nl
      ++ "def add(a, b = 0):" ++ nl
      ++ "    " ++ triple_quote ++ "Add two numbers." ++ triple_quote ++ nl
      = "# flake8: noqa: PYI021" ++ nl ++ body ++ nl.
Proof.
  split.
  - apply (proj1 (genpyi_text_ends bare_module _ _ eq_refl eq_refl)).
    reflexivity.
  - apply (proj2 (genpyi_text_ends add_module _ _ eq_refl eq_refl)).
    discriminate.
Defined.

(** X8. The text of a module depends only on which members of a
    supported type it has: two modules whose supported members are the
    same up to the order of listing get the same text, whatever else they
    hold. *)
Theorem genpyi_supported_permutation
        (module module' : object) (objs objs' : list object) (out : string) :
  dir_contents module = Return objs ->
  dir_contents module' = Return objs' ->
  Permutation (filter supported objs) (filter supported objs') ->
  genpyi module = Return out -> genpyi module' = Return out.
Proof.
  intros Hobjs Hobjs' HP. unfold genpyi. rewrite Hobjs, Hobjs'. cbn [bind].
  intros (definitions & H & [= <-])%bind_Return_inv.
  destruct (comprehension_Permutation genentry _ _ _ HP H)
    as (definitions' & -> & HP').
  simpl. now rewrite (sorted_Permutation _ _ HP').
Qed.

Lemma genpyi_supported_permutation_witness :
  genpyi mixed_module_reordered
  = Return ("# flake8: noqa: PYI021" ++ nl
            ++ "class alpha:" ++ nl ++ "    ..." ++ nl ++ nl ++ nl
            ++ "def Zeta():" ++ nl ++ "    ..." ++ nl).
Proof.
  apply (genpyi_supported_permutation mixed_module mixed_module_reordered
           [zeta_function; alpha_class; plain_value "int"]
           [plain_value "NoneType"; alpha_class; zeta_function]).
  - reflexivity.
  - reflexivity.
  - apply perm_swap.
  - reflexivity.
Defined.

(** ** The path of the stub file *)

Lemma join_cons_char (sep : string) (c : ascii) (piece : string) (pieces : list string) :
  Str.join sep (String c piece :: pieces) = String c (Str.join sep (piece :: pieces)).
Proof. now destruct pieces. Qed.

(** X9. The relative path that [genfile] derives from the dotted name of
    a module is that name with every dot turned into a slash, and nothing
    else changed. *)
Theorem module_relpath_replaces_dots (modulename : string) :
  module_relpath modulename = replace_char "." "/" modulename.
Proof.
  unfold module_relpath.
  induction modulename as [|c s IH]; [reflexivity|].
  rewrite split_char_cons. simpl replace_char.
  pose proof (split_char_length "." s) as Hlen.
  destruct (Str.split "." s) as [|piece pieces]; [discriminate|].
  destruct (Ascii.eqb c "."); [|rewrite join_cons_char]; now rewrite <- IH.
Qed.

Example module_relpath_pypkg : module_relpath "pypkg.rustlib" = "pypkg/rustlib".
Proof. reflexivity. Qed.

(** ** Methods inside a class entry *)

Lemma lstrip_by_some (p : ascii -> bool) (s : string) :
  all_chars p s = false ->
  exists c t, Str.lstrip_by p s = String c t /\ p c = false.
Proof.
  induction s as [|c s IH]; simpl; [discriminate|].
  destruct (p c) eqn:Hc; simpl; eauto.
Qed.

(** A line holding a character that is not whitespace is not blank. *)
Lemma nonblank_some (line : string) :
  all_chars Str.isspace line = false -> Str.nonblank line = true.
Proof.
  intros (c & t & E & Hc)%lstrip_by_some.
  unfold Str.nonblank, Str.strip. rewrite E. simpl.
  destruct (Str.rstrip_by Str.isspace t); [now rewrite Hc | reflexivity].
Qed.

Lemma splitlines_line (line rest : string) :
  no_linebreak line = true ->
  Str.splitlines_keepends (line ++ nl ++ rest)
  = (line ++ nl) :: Str.splitlines_keepends rest.
Proof.
  unfold no_linebreak. induction line as [|c line IH]; [reflexivity|].
  simpl all_chars. intros [Hc Hline]%andb_true_iff.
  apply negb_true_iff in Hc.
  change (Str.splitlines_keepends (String c line ++ nl ++ rest))
    with (if Str.islinebreak c && negb (Ascii.eqb c CR && prefix nl (line ++ nl ++ rest))
          then String c "" :: Str.splitlines_keepends (line ++ nl ++ rest)
          else match Str.splitlines_keepends (line ++ nl ++ rest) with
               | l :: ls => String c l :: ls
               | [] => [String c ""]
               end).
  now rewrite Hc, (IH Hline).
Qed.

Lemma concat_empty_cons (x : string) (xs : list string) :
  String.concat "" (x :: xs) = x ++ String.concat "" xs.
Proof. destruct xs; simpl; [now rewrite app_empty_r | reflexivity]. Qed.

(** Indenting a text whose first line is not blank. *)
Lemma indent_line (line rest prefix : string) :
  no_linebreak line = true ->
  all_chars Str.isspace line = false ->
  textwrap.indent (line ++ nl ++ rest) prefix
  = prefix ++ line ++ nl ++ textwrap.indent rest prefix.
Proof.
  intros Hline Hsome. unfold textwrap.indent.
  rewrite (splitlines_line line rest Hline).
  cbn [map]. rewrite concat_empty_cons.
  unfold textwrap.prefixed_line at 1.
  rewrite nonblank_some by (rewrite all_chars_app, Hsome; reflexivity).
  now rewrite !app_assoc_string.
Qed.

Lemma no_linebreak_app (s t : string) :
  no_linebreak (s ++ t) = no_linebreak s && no_linebreak t.
Proof. apply all_chars_app. Qed.

(** X11. Inside a class entry a method that is documented on one line, or
    not at all, is written four spaces in: its [def] line is indented by
    four spaces and its body by eight.  (The name, the parsed signature
    and the docstring are taken to hold no character that ends a
    line.) *)
Theorem method_entry_indented (function : object) (sig : string) :
  __text_signature__ function = Some (Some sig) ->
  let signature := parse_signature sig (__doc__ function) in
  no_linebreak (__name__ function ++ signature) = true ->
  let indented body :=
    exists entry,
      gen_function_entry function = Return entry
      /\ textwrap.indent entry "    "
         = "    def " ++ __name__ function ++ signature ++ ":" ++ nl
           ++ "        " ++ body ++ nl in
  (__doc__ function = None \/ __doc__ function = Some "" -> indented "...")
  /\ (forall doc,
         __doc__ function = Some doc -> doc <> "" -> no_linebreak doc = true ->
         indented (triple_quote ++ doc ++ triple_quote)).
Proof.
  intros Hsig signature Hhead indented.
  assert (Hdef : no_linebreak ("def " ++ __name__ function ++ signature ++ ":") = true).
  { replace (__name__ function ++ signature ++ ":")
      with ((__name__ function ++ signature) ++ ":")
      by apply app_assoc_string.
    rewrite (no_linebreak_app "def "), (no_linebreak_app _ ":"), Hhead.
    reflexivity. }
  assert (Hentry : forall body,
             no_linebreak ("    " ++ body) = true ->
             all_chars Str.isspace ("    " ++ body) = false ->
             textwrap.indent
               ("def " ++ __name__ function ++ signature ++ ":" ++ nl
                ++ ("    " ++ body) ++ nl) "    "
             = "    def " ++ __name__ function ++ signature ++ ":" ++ nl
               ++ "        " ++ body ++ nl).
  { intros body Hbody Hsome.
    replace ("def " ++ __name__ function ++ signature ++ ":" ++ nl
             ++ ("    " ++ body) ++ nl)
      with (("def " ++ __name__ function ++ signature ++ ":") ++ nl
            ++ ("    " ++ body) ++ nl ++ "")
      by (now rewrite !app_assoc_string).
    rewrite (indent_line _ _ "    " Hdef eq_refl).
    rewrite (indent_line _ _ "    " Hbody Hsome).
    now rewrite !app_assoc_string. }
  unfold indented, gen_function_entry, signature_of. rewrite Hsig. split.
  - intros Hdoc. eexists. split; [reflexivity|].
    destruct Hdoc as [-> | ->]; exact (Hentry "..." eq_refl eq_refl).
  - intros doc Hdoc Hne Hline. eexists. split; [reflexivity|].
    rewrite Hdoc. destruct doc as [|c doc]; [congruence|].
    cbn [truthy Str.truthy fmt bind].
    assert (Hinline : doc_block (String c doc)
                      = "    " ++ triple_quote ++ String c doc ++ triple_quote).
    { apply doc_block_inline; [discriminate|].
      intros (before & after & E).
      assert (H : no_linebreak (before ++ nl ++ after) = true) by now rewrite <- E.
      rewrite !no_linebreak_app in H.
      apply andb_true_iff in H as [_ [H _]%andb_true_iff]. discriminate. }
    rewrite Hinline.
    apply (Hentry (triple_quote ++ String c doc ++ triple_quote)).
    + change (no_linebreak (triple_quote ++ (String c doc) ++ triple_quote) = true).
      rewrite !no_linebreak_app, Hline. reflexivity.
    + reflexivity.
Qed.

Lemma method_entry_indented_witness :
  (exists entry,
      gen_function_entry zeta_function = Return entry
      /\ textwrap.indent entry "    "
         = "    def " ++ "Zeta" ++ "()" ++ ":" ++ nl ++ "        " ++ "..." ++ nl)
  /\ (exists entry,
         gen_function_entry repr_method = Return entry
         /\ textwrap.indent entry "    "
            = "    def " ++ "__repr__" ++ "(self, /)" ++ ":" ++ nl
              ++ "        " ++ (triple_quote ++ "Return repr(self)." ++ triple_quote)
              ++ nl).
Proof.
  split.
  - apply (proj1 (method_entry_indented zeta_function "()" eq_refl eq_refl)).
    now left.
  - apply (proj2 (method_entry_indented repr_method "($self, /)" eq_refl eq_refl)
                 "Return repr(self).");
      [reflexivity | discriminate | reflexivity].
Defined.
